(** * PinholeViewerPlus backend ([backend/server.py])

    A shallow embedding of the FastAPI service: the status log
    ([create_status_check], [get_status_checks]) and the brightness
    estimator ([analyze_brightness]), with the properties of its
    luminance aggregation and of its exposure-value curve.

    Python's [float] is IEEE binary64.  The arithmetic of the handler is
    written once, over an interface [PyFloat], and read at two instances:
    - [binary64]: the kernel's primitive floats, the arithmetic the
      program runs on;
    - [exact]: the rationals, the arithmetic the curve is described in.  *)

From Stdlib Require Import ZArith QArith Qabs Lqa Lia List String.
From Stdlib Require Import Floats Uint63.
From stdpp Require Import base gmap strings list pretty.

Set Warnings "-inexact-float,-abstract-large-number".
Local Open Scope Z_scope.

(** ** Exceptions

    A value of [exn] stands for an exception that was raised: the name
    of its class and the text [str(e)] gives.  *)

Record exn : Type := Exception { exn_class : string; exn_msg : string }.

Definition str (e : exn) : string := exn_msg e.

(** The classes that derive from [BaseException] without deriving from
    [Exception]; [asyncio.CancelledError] is one of them since Python
    3.8. *)
Definition BaseException_only : list string :=
  ["BaseException"; "SystemExit"; "KeyboardInterrupt"; "GeneratorExit";
   "CancelledError"].

(** [isinstance(e, Exception)] *)
Definition is_Exception (e : exn) : bool :=
  negb (existsb (String.eqb (exn_class e)) BaseException_only).

Inductive outcome (A : Type) : Type :=
| Return (a : A)
| Raise (e : exn).
Arguments Return {A} a.
Arguments Raise {A} e.

(** Sequencing: the first exception raised ends the block.  With these
    instances [x ← c; k] reads as two statements in sequence. *)
#[export] Instance outcome_ret : MRet outcome := fun A a => Return a.
#[export] Instance outcome_bind : MBind outcome := fun A B k c =>
  match c with
  | Return a => k a
  | Raise e => Raise e
  end.

Definition ZeroDivisionError (msg : string) : exn :=
  {| exn_class := "ZeroDivisionError"; exn_msg := msg |}.

(** What a cancelled task gets at the point it awaits. *)
Definition CancelledError : exn :=
  {| exn_class := "CancelledError"; exn_msg := "" |}.

(** ** The arithmetic of [float] *)

Class PyFloat (F : Type) : Type := {
  (** the conversion [int -> float] of mixed arithmetic *)
  of_int : Z -> F;
  (** a decimal literal: [0.299] is [decimal 299 1000] *)
  decimal : Z -> Z -> F;
  add : F -> F -> F;
  sub : F -> F -> F;
  mul : F -> F -> F;
  div : F -> F -> F;
  ltb : F -> F -> bool;
  leb : F -> F -> bool;
  (** [round(x, 2)] *)
  round2 : F -> F;
  (** [f"{x:.2f}"] *)
  format_2f : F -> string
}.

Declare Scope py_scope.
Delimit Scope py_scope with py.
Infix "+" := add : py_scope.
Infix "-" := sub : py_scope.
Infix "*" := mul : py_scope.
Infix "/" := div : py_scope.
Infix "<?" := ltb : py_scope.
Infix "<=?" := leb : py_scope.
Abbreviation int := of_int (only parsing).

(** Nearest integer to a rational, ties to the even one: the rounding
    [round] applies to the scaled value. *)
Definition round_half_even (q : Q) : Z :=
  let n := Qnum q in
  let d := Zpos (Qden q) in
  let f := n / d in
  let r := n mod d in
  match 2 * r ?= d with
  | Lt => f
  | Gt => f + 1
  | Eq => if Z.even f then f else f + 1
  end.

(** The text of [k] hundredths with two places after the point, for
    [k] not negative: 1227 is written 12.27. *)
Definition two_places (negative : bool) (k : Z) : string :=
  (if negative then "-" else "") +:+ pretty (k / 100) +:+ "."
  +:+ pretty (k mod 100 / 10) +:+ pretty (k mod 10).

(** *** Exact arithmetic *)

Definition Qltb (x y : Q) : bool := negb (Qle_bool y x).

Definition Q_format_2f (x : Q) : string :=
  two_places (Qnum x <? 0) (round_half_even (Qabs x * 100)).

#[export] Instance exact : PyFloat Q := {|
  of_int := inject_Z;
  decimal := fun n d => Qmake n (Z.to_pos d);
  add := Qplus;
  sub := Qminus;
  mul := Qmult;
  div := Qdiv;
  ltb := Qltb;
  leb := Qle_bool;
  round2 := fun x => Qmake (round_half_even (x * 100)) 100;
  format_2f := Q_format_2f
|}.

(** *** Binary64 *)

(** [float(z)], for an int below 2^63 in magnitude. *)
Definition float_of_Z (z : Z) : float :=
  if z <? 0 then PrimFloat.opp (of_uint63 (Uint63.of_Z (- z)))
  else of_uint63 (Uint63.of_Z z).

(** The value of a finite float, as a rational. *)
Definition Q_of_float (x : float) : option Q :=
  match Prim2SF x with
  | S754_zero _ => Some 0%Q
  | S754_finite s m e =>
      let v := if 0 <=? e then inject_Z (Zpos m * 2 ^ e)
               else Qmake (Zpos m) (Z.to_pos (2 ^ (- e))) in
      Some (if s then Qopp v else v)
  | _ => None
  end.

(** [round(x, 2)]: the decimal with two places nearest to [x] (ties to
    even, on the exact value of [x]), then the float nearest to that
    decimal, with the sign of [x].  Infinities and NaN are returned
    unchanged.  The scaled integer is below 2^53 for every [x] below
    2^46 in magnitude, so that its conversion is exact and the division
    correctly rounded. *)
Definition float_round2 (x : float) : float :=
  match Q_of_float (PrimFloat.abs x) with
  | Some q =>
      let k := round_half_even (q * 100) in
      let y := PrimFloat.div (float_of_Z k) (float_of_Z 100) in
      if PrimFloat.get_sign x then PrimFloat.opp y else y
  | None => x
  end.

(** [f"{x:.2f}"]: the same decimal as [round(x, 2)] finds, written out
    with the sign of [x]. *)
Definition float_format_2f (x : float) : string :=
  match Q_of_float (PrimFloat.abs x) with
  | Some q => two_places (PrimFloat.get_sign x) (round_half_even (q * 100))
  | None =>
      if PrimFloat.is_nan x then "nan"
      else if PrimFloat.get_sign x then "-inf" else "inf"
  end.

#[export] Instance binary64 : PyFloat float := {|
  of_int := float_of_Z;
  decimal := fun n d => PrimFloat.div (float_of_Z n) (float_of_Z d);
  add := PrimFloat.add;
  sub := PrimFloat.sub;
  mul := PrimFloat.mul;
  div := PrimFloat.div;
  ltb := PrimFloat.ltb;
  leb := PrimFloat.leb;
  round2 := float_round2;
  format_2f := float_format_2f
|}.

(** ** The exposure-value curve ([analyze_brightness], the [if] chain) *)

Section Curve.
Context {F : Type} `{PyFloat F}.
Local Open Scope py_scope.

Definition ev (avg_luminance : F) : F :=
  if avg_luminance <? int 30 then
    int 2 + (avg_luminance / int 30) * int 4
  else if avg_luminance <? int 60 then
    int 6 + ((avg_luminance - int 30) / int 30) * int 3
  else if avg_luminance <? int 120 then
    int 9 + ((avg_luminance - int 60) / int 60) * int 3
  else if avg_luminance <? int 180 then
    int 12 + ((avg_luminance - int 120) / int 60) * int 2
  else
    int 14 + ((avg_luminance - int 180) / int 75) * int 3.

End Curve.

(** ** Luminance aggregation ([analyze_brightness], the [for] loop)

    A pixel of an RGB image is a 3-tuple of ints.  [total_luminance]
    starts as the int [0] and becomes a float with the first pixel, which
    is what decides the division of an empty image. *)

Definition pixel : Type := Z * Z * Z.

Inductive number (F : Type) : Type :=
| PyInt (z : Z)
| PyFlt (x : F).
Arguments PyInt {F} z.
Arguments PyFlt {F} x.

Section Aggregation.
Context {F : Type} `{PyFloat F}.
Local Open Scope py_scope.

Definition as_float (a : number F) : F :=
  match a with
  | PyInt z => int z
  | PyFlt x => x
  end.

(** [a / n] with [n] an int: Python raises on a zero divisor, with the
    message of the left operand's type. *)
Definition truediv (a : number F) (n : Z) : outcome F :=
  if (n =? 0)%Z then
    Raise (ZeroDivisionError
             match a with
             | PyInt _ => "division by zero"
             | PyFlt _ => "float division by zero"
             end)
  else Return (as_float a / int n).

Definition luminance (p : pixel) : F :=
  let '(r, g, b) := p in
  decimal 299 1000 * int r + decimal 587 1000 * int g + decimal 114 1000 * int b.

(** The loop, from the value [total_luminance] has on entry. *)
Fixpoint total_luminance_from (total_luminance : number F) (pixels : list pixel)
  : number F :=
  match pixels with
  | [] => total_luminance
  | p :: pixels =>
      total_luminance_from (PyFlt (as_float total_luminance + luminance p)) pixels
  end.

Definition total_luminance (pixels : list pixel) : number F :=
  total_luminance_from (PyInt 0) pixels.

Definition len (pixels : list pixel) : Z := Z.of_nat (length pixels).

Definition avg_luminance (pixels : list pixel) : outcome F :=
  truediv (total_luminance pixels) (len pixels).

End Aggregation.

(** ** The service state *)

Inductive value : Type :=
| VStr (s : string)
| VDatetime (t : Z)
| VObjectId (n : N).

(** What the handlers hand to [logger]: for [logger.info], the two
    numbers as the message formats them, with [:.2f]; for
    [logger.error], the text of the exception. *)
Inductive log_record (F : Type) : Type :=
| Analyzed_image (avg_luminance calculated_ev : string)
| Error_analyzing_brightness (e : string).
Arguments Analyzed_image {F} _ _.
Arguments Error_analyzing_brightness {F} e.

Record server (F : Type) : Type := Server {
  status_checks : list (gmap string value);   (* the collection [db.status_checks] *)
  next_object_id : N;
  logger : list (log_record F)
}.
Arguments Server {F} _ _ _.
Arguments status_checks {F} _.
Arguments next_object_id {F} _.
Arguments logger {F} _.

(** A handler runs on the state and returns or raises. *)
Definition handler (F A : Type) : Type := server F -> outcome A * server F.

#[export] Instance handler_ret {F} : MRet (handler F) := fun A a s => (Return a, s).
#[export] Instance handler_bind {F} : MBind (handler F) := fun A B k c s =>
  match c s with
  | (Return a, s') => k a s'
  | (Raise e, s') => (Raise e, s')
  end.

Definition lift {F A} (c : outcome A) : handler F A := fun s => (c, s).

(** [try: body] with [except Exception as e: except e]: an exception
    that is not an [Exception] is not caught. *)
Definition try_handler {F A} (body : handler F A) (except : exn -> handler F A)
  : handler F A := fun s =>
  match body s with
  | (Return a, s') => (Return a, s')
  | (Raise e, s') => if is_Exception e then except e s' else (Raise e, s')
  end.

Definition logger_info {F} (r : log_record F) : handler F unit := fun s =>
  (Return tt, Server (status_checks s) (next_object_id s) (logger s ++ [r])).

Definition logger_error {F} (r : log_record F) : handler F unit := logger_info r.

(** ** The imaging library

    Pillow is a collaborator of the service, not part of it: the handler
    is written over its interface.  [thumbnail] changes the image in
    place; here it returns the changed image. *)

Class PIL : Type := {
  Image : Type;
  Image_open : list Byte.byte -> outcome Image;
  mode : Image -> string;
  size : Image -> Z * Z;
  convert : Image -> string -> outcome Image;
  thumbnail : Image -> Z * Z -> outcome Image;
  (** on an image of mode RGB *)
  getdata : Image -> outcome (list pixel)
}.

Record UploadFile : Type := { file_read : outcome (list Byte.byte) }.

(** The body of a response: the result, or the error payload with the
    status it is paired with. *)
Inductive response (F : Type) : Type :=
| BrightnessResult (avg_luminance ev : F) (pixel_count : Z)
| ErrorPayload (error : string) (status : Z).
Arguments BrightnessResult {F} _ _ _.
Arguments ErrorPayload {F} _ _.

Section AnalyzeBrightness.
Context {F : Type} `{PyFloat F} `{PIL}.

(** The statements of the [try] block up to [image.thumbnail((200, 200))]. *)
Definition normalize (file : UploadFile) : outcome Image :=
  contents ← file_read file;
  image ← Image_open contents;
  image ← (if negb (String.eqb (mode image) "RGB") then convert image "RGB"
           else Return image);
  thumbnail image (200, 200).

(** ... and up to [pixels = list(image.getdata())]. *)
Definition read_pixels (file : UploadFile) : outcome (list pixel) :=
  image ← normalize file;
  getdata image.

Definition try_block (file : UploadFile) : handler F (response F) :=
  pixels ← lift (read_pixels file);
  avg_luminance ← lift (avg_luminance pixels);
  let ev := ev avg_luminance in
  _ ← logger_info (Analyzed_image (format_2f avg_luminance) (format_2f ev));
  mret (BrightnessResult (round2 avg_luminance) (round2 ev) (len pixels)).

Definition except_block (e : exn) : handler F (response F) :=
  _ ← logger_error (Error_analyzing_brightness (str e));
  mret (ErrorPayload (str e) 500).

Definition analyze_brightness (file : UploadFile) : handler F (response F) :=
  try_handler (try_block file) except_block.

(** What a call that ended in the [except] block returns and leaves. *)
Definition error_response (e : exn) (s : server F) : outcome (response F) * server F :=
  (Return (ErrorPayload (str e) 500),
   snd (logger_error (Error_analyzing_brightness (str e)) s)).

(** What [except Exception] makes of an exception raised in state [s]. *)
Definition caught_or_propagated (e : exn) (s : server F)
  : outcome (response F) * server F :=
  if is_Exception e then error_response e s else (Raise e, s).

End AnalyzeBrightness.

(** ** The status log ([create_status_check], [get_status_checks])

    A document of the collection is a Python dict.  The database is
    modelled as the list of its documents in insertion order, the order
    [find()] yields them in; its operations do not fail here.  A
    [datetime] is the number of its microseconds since the epoch. *)

Record StatusCheck : Type := {
  id_ : string;
  client_name : string;
  timestamp : Z
}.

(** What pydantic makes of a string given for a [datetime] field: the
    instant it parses it to, if it does.  The parser is the library's. *)
Class Pydantic : Type := { parse_datetime : string -> option Z }.

Record StatusCheckCreate : Type := { input_client_name : string }.

Definition ValidationError (msg : string) : exn :=
  {| exn_class := "ValidationError"; exn_msg := msg |}.

(** [StatusCheck] on the keywords of a dict: [client_name] is required,
    [id] and [timestamp] default to what their factories give ([uuid4],
    [utcnow]), every field is validated against its type, a string given
    as [timestamp] being parsed, and keys that are not fields are
    ignored.  The text of the validation error is not modelled. *)
Definition StatusCheck_new `{Pydantic} (uuid4 : string) (utcnow : Z)
    (d : gmap string value) : outcome StatusCheck :=
  i ← match d !! "id" with
      | None => Return uuid4
      | Some (VStr s) => Return s
      | Some _ => Raise (ValidationError "id")
      end;
  c ← match d !! "client_name" with
      | Some (VStr s) => Return s
      | _ => Raise (ValidationError "client_name")
      end;
  t ← match d !! "timestamp" with
      | None => Return utcnow
      | Some (VDatetime t) => Return t
      | Some (VStr s) =>
          match parse_datetime s with
          | Some t => Return t
          | None => Raise (ValidationError "timestamp")
          end
      | Some _ => Raise (ValidationError "timestamp")
      end;
  Return {| id_ := i; client_name := c; timestamp := t |}.

(** [status_obj.dict()] *)
Definition StatusCheck_dict (o : StatusCheck) : gmap string value :=
  <["id" := VStr (id_ o)]>
    (<["client_name" := VStr (client_name o)]>
       (<["timestamp" := VDatetime (timestamp o)]> ∅)).

(** [input.dict()] *)
Definition StatusCheckCreate_dict (input : StatusCheckCreate) : gmap string value :=
  <["client_name" := VStr (input_client_name input)]> ∅.

(** What the database keeps of a value: BSON holds a [datetime] in
    milliseconds, the microseconds below are cut off. *)
Definition bson (v : value) : value :=
  match v with
  | VDatetime t => VDatetime (t / 1000 * 1000)
  | _ => v
  end.

(** [db.status_checks.insert_one(d)]: the document is stored, as BSON
    keeps it, under a fresh [_id]. *)
Definition insert_one {F} (d : gmap string value) : handler F unit := fun s =>
  (Return tt,
   Server (status_checks s ++ [<["_id" := VObjectId (next_object_id s)]> (bson <$> d)])
          (N.succ (next_object_id s)) (logger s)).

(** [cursor.to_list(length)]: at most [length] documents. *)
Definition to_list (length : nat) (cursor : list (gmap string value))
  : list (gmap string value) :=
  take length cursor.

(** The list comprehension; [factories k] is what [uuid4] and [utcnow]
    give at the construction of the [k]-th record. *)
Fixpoint StatusCheck_each `{Pydantic} (factories : nat -> string * Z) (k : nat)
    (docs : list (gmap string value)) : outcome (list StatusCheck) :=
  match docs with
  | [] => Return []
  | status_check :: docs =>
      o ← StatusCheck_new (fst (factories k)) (snd (factories k)) status_check;
      os ← StatusCheck_each factories (S k) docs;
      Return (o :: os)
  end.

Definition create_status_check {F} `{Pydantic} (uuid4 : string) (utcnow : Z)
    (input : StatusCheckCreate) : handler F StatusCheck :=
  let status_dict := StatusCheckCreate_dict input in
  status_obj ← lift (StatusCheck_new uuid4 utcnow status_dict);
  _ ← insert_one (StatusCheck_dict status_obj);
  mret status_obj.

Definition get_status_checks {F} `{Pydantic} (factories : nat -> string * Z)
  : handler F (list StatusCheck) := fun s =>
  let status_checks := to_list 1000 (status_checks s) in
  (StatusCheck_each factories 0 status_checks, s).

(** The documents of a list of records, each the dict of its record
    under an object id, the first under [n]. *)
Fixpoint stored (n : N) (os : list StatusCheck) : list (gmap string value) :=
  match os with
  | [] => []
  | o :: os => <["_id" := VObjectId n]> (StatusCheck_dict o) :: stored (N.succ n) os
  end.

(** ** What the handler relies on from the imaging library *)

Class PILContract `{PIL} : Prop := {
  size_nonneg : ∀ im, 0 <= fst (size im) ∧ 0 <= snd (size im);
  (** [thumbnail] leaves an image no larger than the requested box *)
  thumbnail_fits : ∀ im box im',
    thumbnail im box = Return im' →
    fst (size im') <= fst box ∧ snd (size im') <= snd box;
  (** [getdata] yields one element per pixel of the grid *)
  getdata_len : ∀ im pixels,
    getdata im = Return pixels →
    Z.of_nat (length pixels) = fst (size im) * snd (size im)
}.


(** ** A small imaging library

    An instance of the interface to run the handler on: a raster is its
    mode, its dimensions and its samples by column and row; a file is a
    header of three bytes (mode tag, width, height) followed by the
    samples in scan order, one byte per pixel for mode L and three for
    mode RGB.  A file of no pixels is refused, as Pillow refuses it. *)

Module Raster.

Record image : Type := {
  im_mode : string;
  im_width : nat;
  im_height : nat;
  im_pixel : nat -> nat -> pixel
}.

Definition UnidentifiedImageError : exn :=
  {| exn_class := "UnidentifiedImageError";
     exn_msg := "cannot identify image file" |}.

Definition sample (samples : list Byte.byte) (i : nat) : Z :=
  Z.of_N (Byte.to_N (nth i samples Byte.x00)).

Definition decode (contents : list Byte.byte) : outcome image :=
  match contents with
  | tag :: w :: h :: samples =>
      let w := N.to_nat (Byte.to_N w) in
      let h := N.to_nat (Byte.to_N h) in
      match Byte.to_N tag with
      | 0%N =>
          if ((0 <? w) && (0 <? h) && (w * h <=? length samples))%nat then
            Return {| im_mode := "L"; im_width := w; im_height := h;
                      im_pixel := fun x y =>
                        let v := sample samples (y * w + x) in (v, v, v) |}
          else Raise UnidentifiedImageError
      | 1%N =>
          if ((0 <? w) && (0 <? h) && (3 * (w * h) <=? length samples))%nat then
            Return {| im_mode := "RGB"; im_width := w; im_height := h;
                      im_pixel := fun x y =>
                        let i := (3 * (y * w + x))%nat in
                        (sample samples i, sample samples (i + 1),
                         sample samples (i + 2)) |}
          else Raise UnidentifiedImageError
      | _ => Raise UnidentifiedImageError
      end
  | _ => Raise UnidentifiedImageError
  end.

Definition with_mode (im : image) (mode : string) : outcome image :=
  Return {| im_mode := mode; im_width := im_width im;
            im_height := im_height im; im_pixel := im_pixel im |}.

(** The box is kept when the image fits; otherwise the image is
    resampled by nearest neighbour to the largest size of its aspect
    ratio inside the box, at least one pixel each way. *)
Definition fit (im : image) (box : Z * Z) : outcome image :=
  let '(x, y) := (Z.to_nat (fst box), Z.to_nat (snd box)) in
  let '(w, h) := (im_width im, im_height im) in
  if (fst box <? 0) || (snd box <? 0) then
    Raise {| exn_class := "ValueError"; exn_msg := "negative size" |}
  else if ((w <=? x) && (h <=? y))%nat then Return im
  else if ((x =? 0) || (y =? 0) || (w =? 0) || (h =? 0))%nat then
    Raise (ZeroDivisionError "division by zero")
  else
    let '(w', h') :=
      if (y * w <=? x * h)%nat then (Nat.max (y * w / h) 1, y)
      else (x, Nat.max (x * h / w) 1) in
    Return {| im_mode := im_mode im; im_width := w'; im_height := h';
              im_pixel := fun i j => im_pixel im (i * w / w') (j * h / h') |}.

Definition scan (im : image) : outcome (list pixel) :=
  Return (flat_map (fun y => map (fun x => im_pixel im x y) (seq 0 (im_width im)))
                   (seq 0 (im_height im))).

#[export] Instance raster : PIL := {|
  Image := image;
  Image_open := decode;
  mode := im_mode;
  size := fun im => (Z.of_nat (im_width im), Z.of_nat (im_height im));
  convert := with_mode;
  thumbnail := fit;
  getdata := scan
|}.

End Raster.

(** ** Uploads and states to run the handlers on *)

Definition upload (contents : list Byte.byte) : UploadFile :=
  {| file_read := Return contents |}.

(** An RGB file of zero by zero pixels, which no decoder opens. *)
Definition zero_size_upload : UploadFile :=
  upload [Byte.x01; Byte.x00; Byte.x00].

(** An upload whose read is cancelled while it is awaited. *)
Definition cancelled_upload : UploadFile := {| file_read := Raise CancelledError |}.

(** A parser to run the status log on: it reads the ISO form of the
    epoch and of no other instant. *)
Definition epoch_only (s : string) : option Z :=
  if String.eqb s "1970-01-01T00:00:00" then Some 0 else None.

Definition epoch_parser : Pydantic := {| parse_datetime := epoch_only |}.


(** A grey image of [w] by [h] pixels, each of value [v]. *)
Definition grey_upload (w h v : Byte.byte) : UploadFile :=
  upload (Byte.x00 :: w :: h
          :: repeat v (N.to_nat (Byte.to_N w) * N.to_nat (Byte.to_N h))).

Definition started {F} : server F := Server [] 0%N [].

(** ** The curve as the specification tabulates it

    Five segments, each with its bounds, whether its upper bound belongs
    to it, and its formula.  This definition follows the table of the
    specification; [ev] above follows the code. *)

Record segment (F : Type) : Type := {
  lower : F;
  upper : F;
  upper_closed : bool;
  formula : F -> F
}.
Arguments lower {F} _.
Arguments upper {F} _.
Arguments upper_closed {F} _.
Arguments formula {F} _ _.

Section CurveTable.
Context {F : Type} `{PyFloat F}.
Local Open Scope py_scope.

Definition EVMapper_table : list (segment F) :=
  [ {| lower := int 0; upper := int 30; upper_closed := false;
       formula := fun L => int 2 + (L / int 30) * int 4 |};
    {| lower := int 30; upper := int 60; upper_closed := false;
       formula := fun L => int 6 + ((L - int 30) / int 30) * int 3 |};
    {| lower := int 60; upper := int 120; upper_closed := false;
       formula := fun L => int 9 + ((L - int 60) / int 60) * int 3 |};
    {| lower := int 120; upper := int 180; upper_closed := false;
       formula := fun L => int 12 + ((L - int 120) / int 60) * int 2 |};
    {| lower := int 180; upper := int 255; upper_closed := true;
       formula := fun L => int 14 + ((L - int 180) / int 75) * int 3 |} ].

Definition in_segment (L : F) (s : segment F) : bool :=
  (lower s <=? L) && (if upper_closed s then L <=? upper s else L <? upper s).

(** The laws of the order the refinement needs: they hold of the
    rationals, and of binary64 away from NaN ([x <=? x] fails exactly
    on NaN). *)
Class OrderLaws : Prop := {
  leb_number : ∀ x y, (x <=? y) = true → (x <=? x) = true ∧ (y <=? y) = true;
  ltb_total : ∀ x y,
    (x <=? x) = true → (y <=? y) = true → (x <? y) = false → (y <=? x) = true;
  ltb_leb_trans : ∀ x y z, (x <? y) = true → (y <=? z) = true → (x <? z) = true;
  ltb_asym : ∀ x y, (x <? y) = true → (y <=? x) = false;
  breakpoints_increase :
    (int 30 <=? int 60) && (int 60 <=? int 120) && (int 120 <=? int 180) = true
}.

End CurveTable.
Arguments OrderLaws F {_}.

(** The mean of the BT.601 luma over a pixel sequence, in the
    specification's words: the sum over the samples of
    [0.299*R + 0.587*G + 0.114*B], divided by their number. *)
Definition luma_BT601 (p : pixel) : Q :=
  let '(r, g, b) := p in
  ((299 # 1000) * inject_Z r + (587 # 1000) * inject_Z g + (114 # 1000) * inject_Z b)%Q.

(** The same weighted sum on binary64: the literals are the floats
    nearest to the decimals. *)
Definition luma_binary64 (p : pixel) : float :=
  let '(r, g, b) := p in
  (0.299 * float_of_Z r + 0.587 * float_of_Z g + 0.114 * float_of_Z b)%float.

Definition Qsum (l : list Q) : Q := fold_right Qplus 0%Q l.

Definition mean_luma (pixels : list pixel) : Q :=
  (Qsum (map luma_BT601 pixels) / inject_Z (Z.of_nat (length pixels)))%Q.

(** The breakpoints of the curve and the value the specification gives
    the curve at each: the [k]-th is where segment [k] meets segment [k+1]. *)
Definition breakpoint_values : list (Z * Z) :=
  [(30, 6); (60, 9); (120, 12); (180, 14)].

Section Continuity.
Context {F : Type} `{PyFloat F}.

(** At breakpoint [b], between segments [k] and [k+1] of the table,
    both formulas and the [if] chain yield [v], up to [same]. *)
Definition continuous_at (same : F -> F -> Prop) (k : nat) (b v : Z) : Prop :=
  ∃ s s', EVMapper_table !! k = Some s ∧ EVMapper_table !! S k = Some s'
    ∧ upper s = int b ∧ lower s' = int b
    ∧ same (formula s (int b)) (int v)
    ∧ same (formula s' (int b)) (int v)
    ∧ same (ev (int b)) (int v).

End Continuity.

(** ** Uniform images

    [uniform c n] is the pixel sequence of an image of [n] pixels, each
    [(c, c, c)]. *)
Definition uniform (c : Z) (n : nat) : list pixel := repeat (c, c, c) n.

Section UniformScan.
Context {F : Type} `{PyFloat F}.
Local Open Scope py_scope.

(** The averages the loop and the division give on [k+1], ..., [k+n]
    copies of [p], from the total [t] of the first [k]: one pass of
    the loop, with the division taken after each pixel. *)
Fixpoint uniform_avgs (p : pixel) (n : nat) (k : Z) (t : number F) : list F :=
  match n with
  | O => []
  | S n =>
      let t' := as_float t + luminance p in
      let k' := (k + 1)%Z in
      t' / int k' :: uniform_avgs p n k' (PyFlt t')
  end.

End UniformScan.

(** [all_good good known l]: [good] holds of every element of [l]; it is
    evaluated once for each distinct float, [known] being those already
    found good. *)
Fixpoint all_good (good : float -> bool) (known l : list float) : bool :=
  match l with
  | [] => true
  | a :: l =>
      if existsb (PrimFloat.Leibniz.eqb a) known then all_good good known l
      else good a && all_good good (a :: known) l
  end.

(** Whether the handler answers [avg_luminance] and [ev_] from the
    average [a], on binary64. *)
Definition rounded_result_is (avg_luminance ev_ : float) (a : float) : bool :=
  PrimFloat.Leibniz.eqb (@round2 float binary64 a) avg_luminance
  && PrimFloat.Leibniz.eqb (@round2 float binary64 (@ev float binary64 a)) ev_.

(** ** Pixels of eight bits, and brighter images *)

(** Every channel of the pixel is a byte value. *)
Definition eight_bit (p : pixel) : Prop :=
  let '(r, g, b) := p in
  0 <= r <= 255 ∧ 0 <= g <= 255 ∧ 0 <= b <= 255.

(** No channel of [p] is above the same channel of [q]. *)
Definition pixel_le (p q : pixel) : Prop :=
  let '(r, g, b) := p in
  let '(r', g', b') := q in
  r <= r' ∧ g <= g' ∧ b <= b'.

(** ** Calls in sequence *)

(** One [create_status_check] after another; each call comes with what
    [uuid4] and [utcnow] give during it. *)
Fixpoint create_status_checks {F} `{Pydantic}
    (calls : list (string * Z * StatusCheckCreate)) : handler F (list StatusCheck) :=
  match calls with
  | [] => mret []
  | (uuid4, utcnow, input) :: calls =>
      o ← create_status_check uuid4 utcnow input;
      os ← create_status_checks calls;
      mret (o :: os)
  end.

(** A record as it comes back from the database. *)
Definition as_stored (o : StatusCheck) : StatusCheck :=
  {| id_ := id_ o; client_name := client_name o;
     timestamp := timestamp o / 1000 * 1000 |}.

(** The record a call of [create_status_check] builds. *)
Definition created (call : string * Z * StatusCheckCreate) : StatusCheck :=
  let '(uuid4, utcnow, input) := call in
  {| id_ := uuid4; client_name := input_client_name input; timestamp := utcnow |}.

(** The collection holds the documents of [os], written one after the
    other from the object id [n]. *)
Definition holds {F} (s : server F) (n : N) (os : list StatusCheck) : Prop :=
  status_checks s = stored n os ∧ next_object_id s = (n + N.of_nat (length os))%N.

(** ** Grey levels on the two arithmetics *)

(** The float nearest to [x] rounded to two places in exact arithmetic. *)
Definition rounded_exact (x : Q) : float :=
  PrimFloat.div (float_of_Z (round_half_even (x * 100))) (float_of_Z 100).

(** For the grey level [c]: one grey pixel's average rounds to [c] on
    binary64, and its exposure value, as that of the luminance [c]
    itself, rounds to what the exact curve gives at [c]. *)
Definition grey_level_agrees (c : Z) : bool :=
  match @avg_luminance float binary64 [(c, c, c)] with
  | Return a =>
      PrimFloat.Leibniz.eqb (float_round2 a) (float_of_Z c)
      && PrimFloat.Leibniz.eqb (float_round2 (@ev float binary64 a))
           (rounded_exact (@ev Q exact (inject_Z c)))
      && PrimFloat.Leibniz.eqb (float_round2 (@ev float binary64 (float_of_Z c)))
           (rounded_exact (@ev Q exact (inject_Z c)))
  | Raise _ => false
  end.

(** * Properties *)

(** ** The two arithmetics *)

(** The decimal literals of the handler are the floats nearest to them. *)
Lemma decimal_literals :
  @decimal float binary64 299 1000 = 0.299%float
  ∧ @decimal float binary64 587 1000 = 0.587%float
  ∧ @decimal float binary64 114 1000 = 0.114%float.
Proof. repeat split; vm_compute; reflexivity. Qed.

(** [round(x, 2)] on values whose rounding is known: a tie goes to the
    even neighbour, and 2.675 is below the tie as a binary64. *)
Lemma round2_examples :
  float_round2 0.125 = 0.12%float
  ∧ float_round2 0.375 = 0.38%float
  ∧ float_round2 2.675 = 2.67%float
  ∧ float_round2 12.266666666666667 = 12.27%float
  ∧ float_round2 (-0.001) = (-0)%float
  ∧ @round2 Q exact (184 # 15) = (1227 # 100)%Q
  ∧ @round2 Q exact (1 # 8) = (12 # 100)%Q.
Proof. repeat split; vm_compute; reflexivity. Qed.

(** *** The order of the rationals *)

Lemma Qltb_lt (x y : Q) : Qltb x y = true ↔ (x < y)%Q.
Proof.
  unfold Qltb. rewrite negb_true_iff, <- not_true_iff_false, Qle_bool_iff.
  split; [apply Qnot_le_lt | apply Qlt_not_le].
Qed.

Lemma Qltb_ge (x y : Q) : Qltb x y = false ↔ (y <= x)%Q.
Proof.
  unfold Qltb. rewrite negb_false_iff. apply Qle_bool_iff.
Qed.

Lemma Qleb_gt (x y : Q) : Qle_bool x y = false ↔ (y < x)%Q.
Proof.
  rewrite <- not_true_iff_false, Qle_bool_iff.
  split; [apply Qnot_le_lt | apply Qlt_not_le].
Qed.

#[export] Instance exact_order : OrderLaws Q.
Proof.
  split; simpl.
  - intros x y _. split; apply Qle_bool_iff; apply Qle_refl.
  - intros x y _ _. rewrite Qltb_ge. apply Qle_bool_iff.
  - intros x y z. rewrite !Qltb_lt, Qle_bool_iff. apply Qlt_le_trans.
  - intros x y. rewrite Qltb_lt, Qleb_gt. trivial.
  - reflexivity.
Qed.

(** *** The order of binary64

    Comparison of binary64 values goes through [SFcompare]. *)

Ltac compare_cases :=
  repeat match goal with
    | H : context [(?a ?= ?b)%Z] |- _ => destruct (Z.compare_spec a b); simpl in H
    | |- context [(?a ?= ?b)%Z] => destruct (Z.compare_spec a b); simpl
    | H : context [Pos.compare_cont Eq ?a ?b] |- _ =>
        change (Pos.compare_cont Eq a b) with (Pos.compare a b) in H;
        destruct (Pos.compare_spec a b); simpl in H
    | |- context [Pos.compare_cont Eq ?a ?b] =>
        change (Pos.compare_cont Eq a b) with (Pos.compare a b);
        destruct (Pos.compare_spec a b); simpl
    end.

Lemma SFcompare_antisym (x y : spec_float) (c : comparison) :
  SFcompare x y = Some c → SFcompare y x = Some (CompOpp c).
Proof.
  destruct x as [[]|[]| |[] mx ex], y as [[]|[]| |[] my ey];
    simpl; intros [= <-]; try reflexivity;
    compare_cases; try reflexivity; lia.
Qed.

Lemma SFcompare_number (x y : spec_float) (c : comparison) :
  SFcompare x y = Some c → ∃ c', SFcompare x x = Some c'.
Proof.
  destruct x as [[]|[]| |[] mx ex], y as [[]|[]| |[] my ey];
    simpl; intros [= <-]; eauto.
Qed.

Lemma SFltb_SFleb_trans (x y z : spec_float) :
  SFltb x y = true → SFleb y z = true → SFltb x z = true.
Proof.
  unfold SFltb, SFleb.
  destruct x as [[]|[]| |[] mx ex], y as [[]|[]| |[] my ey], z as [[]|[]| |[] mz ez];
    simpl; intros Hxy Hyz; try discriminate; try reflexivity;
    compare_cases; try discriminate; try reflexivity; lia.
Qed.

Lemma float_leb_number (x y : float) :
  PrimFloat.leb x y = true → PrimFloat.leb x x = true ∧ PrimFloat.leb y y = true.
Proof.
  rewrite !FloatAxioms.leb_spec. unfold SFleb. intros Hxy.
  destruct (SFcompare (Prim2SF x) (Prim2SF y)) as [c|] eqn:E; [|discriminate].
  pose proof (SFcompare_antisym _ _ _ E) as E'.
  destruct (SFcompare_number _ _ _ E) as [cx Ex].
  destruct (SFcompare_number _ _ _ E') as [cy Ey].
  pose proof (SFcompare_antisym _ _ _ Ex) as Ex'.
  pose proof (SFcompare_antisym _ _ _ Ey) as Ey'.
  rewrite Ex in *. rewrite Ey in *.
  split; [destruct cx | destruct cy]; simpl in *; congruence.
Qed.

Lemma float_ltb_total (x y : float) :
  PrimFloat.leb x x = true → PrimFloat.leb y y = true →
  PrimFloat.ltb x y = false → PrimFloat.leb y x = true.
Proof.
  rewrite !FloatAxioms.leb_spec, FloatAxioms.ltb_spec. unfold SFleb, SFltb.
  intros Hx Hy Hxy.
  destruct (Prim2SF x) as [[]|[]| |[] mx ex], (Prim2SF y) as [[]|[]| |[] my ey];
    simpl in *; try discriminate; try reflexivity;
    compare_cases; try discriminate; try reflexivity; lia.
Qed.

Lemma float_ltb_asym (x y : float) :
  PrimFloat.ltb x y = true → PrimFloat.leb y x = false.
Proof.
  rewrite FloatAxioms.leb_spec, FloatAxioms.ltb_spec. unfold SFleb, SFltb.
  intros Hxy.
  destruct (SFcompare (Prim2SF x) (Prim2SF y)) as [c|] eqn:E; [|discriminate].
  rewrite (SFcompare_antisym _ _ _ E). destruct c; simpl; congruence.
Qed.

#[export] Instance binary64_order : OrderLaws float.
Proof.
  split; simpl.
  - apply float_leb_number.
  - apply float_ltb_total.
  - intros x y z. rewrite !FloatAxioms.ltb_spec, FloatAxioms.leb_spec.
    apply SFltb_SFleb_trans.
  - apply float_ltb_asym.
  - vm_compute. reflexivity.
Qed.

(** ** The [if] chain against the table *)

Section CurveRefinement.
Context {F : Type} `{PyFloat F} `{!OrderLaws F}.
Local Open Scope py_scope.

Lemma not_below (c c' L : F) :
  (c <=? c') = true → (c' <=? L) = true → (L <? c) = false.
Proof.
  intros Hc HL. destruct (L <? c) eqn:E; [|reflexivity].
  pose proof (ltb_leb_trans _ _ _ E Hc) as E'.
  apply ltb_asym in E'. congruence.
Qed.

Lemma at_least (c c' L : F) :
  (c <=? c') = true → (c' <=? L) = true → (c <=? L) = true.
Proof.
  intros Hc HL. apply ltb_total.
  - apply (leb_number _ _ HL).
  - apply (leb_number _ _ Hc).
  - apply (not_below c c'); assumption.
Qed.

Lemma at_bound (c L : F) : (c <=? L) = true → (L <? c) = false.
Proof.
  intros HL. apply (not_below c c); [|assumption]. apply (leb_number _ _ HL).
Qed.

Lemma breakpoints :
  (int 30 <=? int 60) = true ∧ (int 60 <=? int 120) = true
  ∧ (int 120 <=? int 180) = true.
Proof.
  pose proof breakpoints_increase as B.
  apply andb_true_iff in B as [B B3]. apply andb_true_iff in B as [B1 B2].
  auto.
Qed.

(** Whichever segment of the table holds [L], its formula gives [ev L]. *)
Lemma ev_on_segment (L : F) (s : segment F) :
  In s EVMapper_table → in_segment L s = true → ev L = formula s L.
Proof.
  destruct breakpoints as (B1 & B2 & B3).
  unfold EVMapper_table, in_segment. simpl.
  intros [<-|[<-|[<-|[<-|[<-|[]]]]]]; simpl;
    intros [Hlo Hhi]%andb_true_iff; unfold ev.
  - rewrite Hhi. reflexivity.
  - rewrite (at_bound _ _ Hlo), Hhi. reflexivity.
  - pose proof (at_least _ _ _ B1 Hlo) as H30.
    rewrite (at_bound _ _ H30), (at_bound _ _ Hlo), Hhi. reflexivity.
  - pose proof (at_least _ _ _ B2 Hlo) as H60.
    pose proof (at_least _ _ _ B1 H60) as H30.
    rewrite (at_bound _ _ H30), (at_bound _ _ H60), (at_bound _ _ Hlo), Hhi.
    reflexivity.
  - pose proof (at_least _ _ _ B3 Hlo) as H120.
    pose proof (at_least _ _ _ B2 H120) as H60.
    pose proof (at_least _ _ _ B1 H60) as H30.
    rewrite (at_bound _ _ H30), (at_bound _ _ H60), (at_bound _ _ H120),
      (at_bound _ _ Hlo).
    reflexivity.
Qed.

(** Every [L] of the range lies in a segment of the table. *)
Lemma segment_of (L : F) :
  (int 0 <=? L) = true → (L <=? int 255) = true →
  ∃ s, In s EVMapper_table ∧ in_segment L s = true.
Proof.
  intros H0 H255.
  destruct breakpoints as (B1 & B2 & B3).
  assert (HL : (L <=? L) = true) by apply (leb_number _ _ H0).
  assert (N30 : (int 30 <=? int 30) = true) by apply (leb_number _ _ B1).
  assert (N60 : (int 60 <=? int 60) = true) by apply (leb_number _ _ B2).
  assert (N120 : (int 120 <=? int 120) = true) by apply (leb_number _ _ B3).
  assert (N180 : (int 180 <=? int 180) = true) by apply (leb_number _ _ B3).
  unfold EVMapper_table, in_segment.
  destruct (L <? int 30) eqn:E30.
  { eexists. split; [left; reflexivity|]. simpl. rewrite H0, E30. reflexivity. }
  apply ltb_total in E30; [|assumption..].
  destruct (L <? int 60) eqn:E60.
  { eexists. split; [right; left; reflexivity|]. simpl.
    rewrite E30, E60. reflexivity. }
  apply ltb_total in E60; [|assumption..].
  destruct (L <? int 120) eqn:E120.
  { eexists. split; [do 2 right; left; reflexivity|]. simpl.
    rewrite E60, E120. reflexivity. }
  apply ltb_total in E120; [|assumption..].
  destruct (L <? int 180) eqn:E180.
  { eexists. split; [do 3 right; left; reflexivity|]. simpl.
    rewrite E120, E180. reflexivity. }
  apply ltb_total in E180; [|assumption..].
  eexists. split; [do 4 right; left; reflexivity|]. simpl.
  rewrite E180, H255. reflexivity.
Qed.

End CurveRefinement.

(** C1.  For every average luminance [L] of [0, 255] the [if] chain of
    [analyze_brightness] returns the value of the five-segment curve of
    the specification: [L] lies in a segment of the table (lower bound
    inclusive, upper bound exclusive, the last one closed at 255), and
    the formula of any segment that holds [L] gives [ev L].  This holds
    in exact arithmetic and on binary64. *)
Theorem ev_is_piecewise_table :
  (∀ L : Q, (0 <= L)%Q → (L <= 255)%Q →
     (∃ s, In s EVMapper_table ∧ in_segment L s = true)
     ∧ ∀ s, In s EVMapper_table → in_segment L s = true → ev L = formula s L)
  ∧ (∀ L : float, PrimFloat.leb 0 L = true → PrimFloat.leb L 255 = true →
     (∃ s, In s EVMapper_table ∧ in_segment L s = true)
     ∧ ∀ s, In s EVMapper_table → in_segment L s = true → ev L = formula s L).
Proof.
  split.
  - intros L H0 H255. split.
    + apply segment_of; simpl; apply Qle_bool_iff; assumption.
    + intros s. apply ev_on_segment.
  - intros L H0 H255. split.
    + apply segment_of; assumption.
    + intros s. apply ev_on_segment.
Qed.

Lemma ev_is_piecewise_table_witness :
  (∃ s, In s (@EVMapper_table Q _) ∧ in_segment (128 # 1) s = true)
  ∧ (∃ s, In s (@EVMapper_table float _) ∧ in_segment 128%float s = true).
Proof.
  split.
  - apply (proj1 ev_is_piecewise_table (128 # 1)); vm_compute; discriminate.
  - apply (proj2 ev_is_piecewise_table 128%float); vm_compute; reflexivity.
Defined.

(** ** The curve in exact arithmetic *)

Ltac exact_arith :=
  cbn [ev ltb leb add sub mul div of_int exact formula lower upper upper_closed] in *;
  unfold inject_Z, Qdiv in *;
  repeat match goal with
    | |- context [Qinv (?n # ?d)] =>
        let v := eval vm_compute in (Qinv (n # d)) in
        change (Qinv (n # d)) with v
    | H : context [Qinv (?n # ?d)] |- _ =>
        let v := eval vm_compute in (Qinv (n # d)) in
        change (Qinv (n # d)) with v in H
    end.

Ltac order_facts :=
  repeat match goal with
    | H : Qltb _ _ = true |- _ => apply Qltb_lt in H
    | H : Qltb _ _ = false |- _ => apply Qltb_ge in H
    | H : Qle_bool _ _ = true |- _ => apply Qle_bool_iff in H
    | H : Qle_bool _ _ = false |- _ => apply Qleb_gt in H
    end.

Lemma ev_exact_monotone (L1 L2 : Q) :
  (L1 <= L2)%Q → (@ev Q exact L1 <= @ev Q exact L2)%Q.
Proof.
  intros Hle. unfold ev. exact_arith.
  destruct (Qltb L1 (30 # 1)) eqn:A1; destruct (Qltb L1 (60 # 1)) eqn:A2;
    destruct (Qltb L1 (120 # 1)) eqn:A3; destruct (Qltb L1 (180 # 1)) eqn:A4;
    destruct (Qltb L2 (30 # 1)) eqn:B1; destruct (Qltb L2 (60 # 1)) eqn:B2;
    destruct (Qltb L2 (120 # 1)) eqn:B3; destruct (Qltb L2 (180 # 1)) eqn:B4;
    order_facts; lra.
Qed.

(** C5.  The exposure-value curve is monotonically non-decreasing: for
    all [L1 < L2] of [0, 255], [ev L1 <= ev L2] (in exact arithmetic). *)
Theorem ev_monotone (L1 L2 : Q) :
  (0 <= L1)%Q → (L1 < L2)%Q → (L2 <= 255)%Q → (@ev Q exact L1 <= @ev Q exact L2)%Q.
Proof.
  intros _ Hlt _. apply ev_exact_monotone. apply Qlt_le_weak. assumption.
Qed.

Lemma ev_monotone_witness : (@ev Q exact (59 # 1) <= @ev Q exact (60 # 1))%Q.
Proof.
  apply (ev_monotone (59 # 1) (60 # 1)); vm_compute; congruence.
Defined.

Lemma ev_exact_strict (s : segment Q) (L1 L2 : Q) :
  In s EVMapper_table → in_segment L1 s = true → in_segment L2 s = true →
  (L1 < L2)%Q → (@ev Q exact L1 < @ev Q exact L2)%Q.
Proof.
  intros Hs H1 H2 Hlt.
  rewrite (ev_on_segment L1 s Hs H1), (ev_on_segment L2 s Hs H2).
  clear H1 H2. unfold EVMapper_table in Hs. simpl in Hs.
  destruct Hs as [<-|[<-|[<-|[<-|[<-|[]]]]]]; exact_arith; lra.
Qed.

Lemma continuous_exact (k : nat) (b v : Z) :
  breakpoint_values !! k = Some (b, v) → @continuous_at Q exact Qeq k b v.
Proof.
  destruct k as [|[|[|[|k]]]]; simpl; intros [= <- <-];
    do 2 eexists; repeat split; reflexivity.
Qed.

Lemma continuous_binary64 (k : nat) (b v : Z) :
  breakpoint_values !! k = Some (b, v) → @continuous_at float binary64 eq k b v.
Proof.
  destruct k as [|[|[|[|k]]]]; simpl; intros [= <- <-];
    do 2 eexists; repeat split; vm_compute; reflexivity.
Qed.

(** C6, as stated, fails on binary64, the arithmetic the code runs on:
    29 and the float that follows it lie in the segment from 0 to 30,
    the first is below the second, and the curve gives both the same
    value. *)
Lemma ev_binary64_not_strictly_increasing :
  ∃ s : segment float,
    In s EVMapper_table
    ∧ in_segment 29%float s = true ∧ in_segment (next_up 29) s = true
    ∧ PrimFloat.ltb 29 (next_up 29) = true
    ∧ @ev float binary64 29%float = @ev float binary64 (next_up 29)
    ∧ PrimFloat.ltb (@ev float binary64 29%float) (@ev float binary64 (next_up 29))
      = false.
Proof.
  eexists. split; [left; reflexivity|].
  repeat split; vm_compute; reflexivity.
Qed.

(** C6, as the code has it.  The curve is continuous at every
    breakpoint: at 30 the two adjacent segment formulas (and the [if]
    chain) yield 6, at 60 they yield 9, at 120 they yield 12 and at 180
    they yield 14, exactly so in exact arithmetic and on binary64.
    Within each segment the curve is strictly increasing in exact
    arithmetic; on binary64 it is not: there are floats of one segment,
    one below the other, with the same value. *)
Theorem ev_continuous_and_increasing :
  (∀ k b v, breakpoint_values !! k = Some (b, v) →
     @continuous_at Q exact Qeq k b v ∧ @continuous_at float binary64 eq k b v)
  ∧ (∀ (s : segment Q) (L1 L2 : Q),
       In s EVMapper_table → in_segment L1 s = true → in_segment L2 s = true →
       (L1 < L2)%Q → (@ev Q exact L1 < @ev Q exact L2)%Q)
  ∧ (∃ (s : segment float) (L1 L2 : float),
       In s EVMapper_table ∧ in_segment L1 s = true ∧ in_segment L2 s = true
       ∧ PrimFloat.ltb L1 L2 = true
       ∧ @ev float binary64 L1 = @ev float binary64 L2).
Proof.
  split; [|split].
  - intros k b v Hk. split; [apply continuous_exact | apply continuous_binary64];
      assumption.
  - apply ev_exact_strict.
  - eexists. exists 29%float, (next_up 29). split; [left; reflexivity|].
    repeat split; vm_compute; reflexivity.
Qed.

Lemma ev_continuous_and_increasing_witness :
  (@continuous_at Q exact Qeq 0 30 6 ∧ @continuous_at float binary64 eq 0 30 6)
  ∧ (@ev Q exact (29 # 1) < @ev Q exact (299 # 10))%Q.
Proof.
  split.
  - apply (proj1 ev_continuous_and_increasing 0%nat 30 6). reflexivity.
  - apply (proj1 (proj2 ev_continuous_and_increasing)
             {| lower := int 0; upper := int 30; upper_closed := false;
                formula := fun L => (int 2 + (L / int 30) * int 4)%py |}).
    + left. reflexivity.
    + reflexivity.
    + reflexivity.
    + reflexivity.
Defined.

(** ** The aggregation loop *)

Section LoopFacts.
Context {F : Type} `{PyFloat F}.
Local Open Scope py_scope.

(** The loop adds the lumas from left to right. *)
Lemma total_luminance_from_fold (acc : number F) (pixels : list pixel) :
  as_float (total_luminance_from acc pixels)
  = fold_left (fun a p => a + luminance p) pixels (as_float acc).
Proof.
  revert acc. induction pixels as [|p pixels IH]; intros acc; simpl.
  - reflexivity.
  - rewrite IH. reflexivity.
Qed.

Lemma total_luminance_from_app (acc : number F) (ps qs : list pixel) :
  total_luminance_from acc (ps ++ qs)
  = total_luminance_from (total_luminance_from acc ps) qs.
Proof.
  revert acc. induction ps as [|p ps IH]; intros acc; simpl.
  - reflexivity.
  - apply IH.
Qed.

(** After a pixel the total is a float. *)
Lemma total_luminance_float (acc : number F) (pixels : list pixel) :
  pixels ≠ [] →
  total_luminance_from acc pixels = PyFlt (as_float (total_luminance_from acc pixels)).
Proof.
  revert acc. induction pixels as [|p pixels IH]; intros acc Hne.
  - congruence.
  - simpl. destruct pixels as [|q pixels].
    + reflexivity.
    + apply IH. discriminate.
Qed.

Lemma len_nonzero (pixels : list pixel) : pixels ≠ [] → (len pixels =? 0)%Z = false.
Proof.
  intros Hne. apply Z.eqb_neq. unfold len.
  destruct pixels; [congruence | simpl length; lia].
Qed.

Lemma avg_luminance_nonempty (pixels : list pixel) :
  pixels ≠ [] →
  avg_luminance pixels
  = Return (fold_left (fun a p => a + luminance p) pixels (int 0) / int (len pixels)).
Proof.
  intros Hne. unfold avg_luminance, truediv, total_luminance.
  rewrite (len_nonzero _ Hne), total_luminance_from_fold. reflexivity.
Qed.

Lemma avg_luminance_empty :
  avg_luminance (F := F) [] = Raise (ZeroDivisionError "division by zero").
Proof. reflexivity. Qed.

End LoopFacts.

Lemma luminance_exact (p : pixel) : (@luminance Q exact p == luma_BT601 p)%Q.
Proof. destruct p as [[r g] b]. reflexivity. Qed.

Lemma fold_left_Qsum (pixels : list pixel) (a : Q) :
  (fold_left (fun a p => (a + @luminance Q exact p)%py) pixels a
   == a + Qsum (map luma_BT601 pixels))%Q.
Proof.
  revert a. induction pixels as [|p pixels IH]; intros a; simpl.
  - ring.
  - rewrite IH, (luminance_exact p). ring.
Qed.

Lemma avg_luminance_exact_mean (pixels : list pixel) :
  pixels ≠ [] →
  ∃ a : Q, @avg_luminance Q exact pixels = Return a ∧ (a == mean_luma pixels)%Q.
Proof.
  intros Hne. eexists. split; [apply avg_luminance_nonempty; assumption|].
  unfold mean_luma, len. cbn [add div of_int exact].
  rewrite fold_left_Qsum. unfold inject_Z at 1.
  apply Qdiv_comp; [ring | reflexivity].
Qed.

Lemma avg_luminance_binary64_sum (pixels : list pixel) :
  pixels ≠ [] →
  @avg_luminance float binary64 pixels
  = Return (fold_left (fun a p => a + luma_binary64 p) pixels 0
            / float_of_Z (Z.of_nat (length pixels)))%float.
Proof.
  intros Hne. rewrite (avg_luminance_nonempty pixels Hne). reflexivity.
Qed.

(** C4.  For every non-empty pixel sequence the average luminance is the
    sum over all samples of [0.299*R + 0.587*G + 0.114*B] divided by the
    number of samples: in exact arithmetic it equals that mean, and on
    binary64 it is that sum, taken from left to right on floats, divided
    by the count. *)
Theorem avg_luminance_is_mean :
  (∀ pixels : list pixel, pixels ≠ [] →
     ∃ a : Q, @avg_luminance Q exact pixels = Return a ∧ (a == mean_luma pixels)%Q)
  ∧ (∀ pixels : list pixel, pixels ≠ [] →
       @avg_luminance float binary64 pixels
       = Return (fold_left (fun a p => a + luma_binary64 p) pixels 0
                 / float_of_Z (Z.of_nat (length pixels)))%float).
Proof.
  split; [exact avg_luminance_exact_mean | exact avg_luminance_binary64_sum].
Qed.

Lemma avg_luminance_is_mean_witness :
  ∃ a : Q, @avg_luminance Q exact [(10, 20, 30); (200, 100, 0)] = Return a
           ∧ (a == mean_luma [(10, 20, 30); (200, 100, 0)]%Z)%Q.
Proof.
  apply (proj1 avg_luminance_is_mean). discriminate.
Defined.

(** ** The handler, case by case *)

Section HandlerFacts.
Context {F : Type} `{PyFloat F} `{PIL}.

Lemma analyze_brightness_cases (file : UploadFile) (s : server F) :
  analyze_brightness file s
  = match read_pixels file with
    | Raise e => caught_or_propagated e s
    | Return pixels =>
        match avg_luminance pixels with
        | Raise e => caught_or_propagated e s
        | Return a =>
            (Return (BrightnessResult (round2 a) (round2 (ev a)) (len pixels)),
             snd (logger_info (Analyzed_image (format_2f a) (format_2f (ev a))) s))
        end
    end.
Proof.
  unfold analyze_brightness, try_handler, try_block, except_block, error_response.
  unfold caught_or_propagated, error_response.
  unfold mbind, handler_bind, mret, handler_ret, lift.
  destruct (read_pixels file) as [pixels|e]; [|reflexivity].
  destruct (avg_luminance pixels) as [a|e]; reflexivity.
Qed.



(** The one exception [avg_luminance] raises is an [Exception]. *)
Lemma avg_luminance_raises (pixels : list pixel) (e : exn) :
  avg_luminance (F := F) pixels = Raise e →
  pixels = [] ∧ e = ZeroDivisionError "division by zero".
Proof.
  destruct pixels as [|p pixels]; [intros [= <-]; split; reflexivity|].
  intros Hraise. rewrite avg_luminance_nonempty in Hraise by discriminate.
  discriminate.
Qed.





End HandlerFacts.

(** Splits on whether the exception at hand is caught. *)
Ltac by_catch :=
  unfold caught_or_propagated;
  match goal with |- context [is_Exception ?e] => destruct (is_Exception e) end.

(** ** Failures *)

(** An empty pixel sequence: the division raises, and the [except]
    block answers with its message. *)
Lemma analyze_brightness_empty {F : Type} `{PyFloat F} `{PIL}
    (file : UploadFile) (s : server F) :
  read_pixels file = Return [] →
  analyze_brightness file s = error_response (ZeroDivisionError "division by zero") s.
Proof.
  intros Hread. rewrite analyze_brightness_cases, Hread. reflexivity.
Qed.

Lemma flat_map_rows {A B} (f : A → list B) (w : nat) (l : list A) :
  (∀ y, length (f y) = w) → length (flat_map f l) = (length l * w)%nat.
Proof.
  intros Hrow. induction l as [|y l IH]; simpl; [reflexivity|].
  rewrite length_app, Hrow, IH. reflexivity.
Qed.

#[export] Instance raster_contract : @PILContract Raster.raster.
Proof.
  split.
  - intros im. simpl. lia.
  - intros im [bx by_] im'. simpl. unfold Raster.fit. simpl.
    destruct (bx <? 0) eqn:Ex; [discriminate|].
    destruct (by_ <? 0) eqn:Ey; [discriminate|]. simpl.
    apply Z.ltb_ge in Ex, Ey.
    destruct (Nat.leb_spec (Raster.im_width im) (Z.to_nat bx));
      destruct (Nat.leb_spec (Raster.im_height im) (Z.to_nat by_)); simpl;
      try (intros [= <-]; lia).
    all: destruct (Nat.eqb_spec (Z.to_nat bx) 0); simpl; [discriminate|];
      destruct (Nat.eqb_spec (Z.to_nat by_) 0); simpl; [discriminate|];
      destruct (Nat.eqb_spec (Raster.im_width im) 0); simpl; [discriminate|];
      destruct (Nat.eqb_spec (Raster.im_height im) 0); simpl; [discriminate|];
      destruct (Nat.leb_spec (Z.to_nat by_ * Raster.im_width im)
                  (Z.to_nat bx * Raster.im_height im));
      intros [= <-]; simpl.
    all: match goal with
         | |- context [(?a / ?b)%nat] =>
             assert (a / b * b <= a)%nat
               by (rewrite Nat.mul_comm; apply Nat.Div0.mul_div_le)
         end; nia.
  - intros im pixels. simpl. unfold Raster.scan. intros [= <-].
    rewrite (flat_map_rows _ (Raster.im_width im)).
    + rewrite length_seq. lia.
    + intros y. rewrite length_map, length_seq. reflexivity.
Qed.

Section Sizes.
Context `{PIL} `{!PILContract} `{!PILSizes}.



End Sizes.








(** ** Downsampling *)

Section Downsampling.
Context {F : Type} `{PyFloat F} `{PIL} `{!PILContract}.

Lemma normalize_fits (file : UploadFile) (im : Image) :
  normalize file = Return im → fst (size im) <= 200 ∧ snd (size im) <= 200.
Proof.
  unfold normalize. destruct (file_read file) as [contents|e]; [|discriminate].
  simpl. destruct (Image_open contents) as [im0|e]; [|discriminate].
  simpl. destruct (if negb (String.eqb (mode im0) "RGB") then convert im0 "RGB"
                   else Return im0) as [im1|e]; [|discriminate].
  simpl. intros Hthumb. apply (thumbnail_fits im1 (200, 200) im Hthumb).
Qed.

Lemma read_pixels_len (file : UploadFile) (pixels : list pixel) :
  read_pixels file = Return pixels → len pixels <= 40000.
Proof.
  unfold read_pixels. destruct (normalize file) as [im|e] eqn:Hnorm; [|discriminate].
  simpl. intros Hdata. unfold len. rewrite (getdata_len im pixels Hdata).
  destruct (normalize_fits file im Hnorm) as [Hw Hh].
  destruct (size_nonneg im) as [Hw0 Hh0]. nia.
Qed.

End Downsampling.

(** C8.  Whatever the resolution of the input, the image the pixels are
    read from is the one [thumbnail((200, 200))] left, so neither of its
    dimensions exceeds 200, and the [pixel_count] of every successful
    result is at most 40,000.  The bound of [thumbnail] and the length
    of [getdata] are the imaging library's, taken as its contract. *)
Theorem downsampled_pixel_count_bounded {F : Type} `{PyFloat F} `{PIL}
    `{!PILContract} (file : UploadFile) (s : server F) :
  (∀ im, normalize file = Return im → fst (size im) <= 200 ∧ snd (size im) <= 200)
  ∧ (∀ a e n, fst (analyze_brightness file s) = Return (BrightnessResult a e n) →
       n <= 40000).
Proof.
  split.
  - apply normalize_fits.
  - intros a e n. rewrite analyze_brightness_cases.
    destruct (read_pixels file) as [pixels|x] eqn:Hread; [|by_catch; discriminate].
    destruct (avg_luminance pixels) as [a'|x]; [|by_catch; discriminate].
    simpl. intros [= _ _ <-]. apply (read_pixels_len file pixels Hread).
Qed.

Lemma downsampled_pixel_count_bounded_witness :
  ∃ a e n,
    fst (@analyze_brightness float binary64 Raster.raster
           (grey_upload Byte.xc9 Byte.x02 Byte.x80) started)
    = Return (BrightnessResult a e n)
    ∧ n <= 40000.
Proof.
  do 3 eexists. split.
  - vm_compute. reflexivity.
  - eapply (proj2 (@downsampled_pixel_count_bounded float binary64 Raster.raster
                     raster_contract (grey_upload Byte.xc9 Byte.x02 Byte.x80) started)).
    vm_compute. reflexivity.
Defined.


(** ** Determinism *)

(** C9.  The answer of [analyze_brightness] does not depend on the state
    a call starts from: two calls on the same upload give the same
    answer, also when the second runs on the state the first left; and
    the answer is a function of the decoded pixel grid, the same for two
    uploads that decode to the same pixels. *)
Theorem analyze_brightness_deterministic {F : Type} `{PyFloat F} `{PIL}
    (file : UploadFile) (s1 s2 : server F) :
  fst (analyze_brightness file s1) = fst (analyze_brightness file s2)
  ∧ fst (analyze_brightness file (snd (analyze_brightness file s1)))
    = fst (analyze_brightness file s1)
  ∧ (∀ file' pixels,
       read_pixels file = Return pixels → read_pixels file' = Return pixels →
       fst (analyze_brightness file s1) = fst (analyze_brightness file' s2))
  ∧ status_checks (snd (analyze_brightness file s1)) = status_checks s1.
Proof.
  repeat split.
  - rewrite !analyze_brightness_cases.
    destruct (read_pixels file) as [pixels|e]; [|by_catch; reflexivity].
    destruct (avg_luminance pixels) as [a|e]; [|by_catch]; reflexivity.
  - rewrite !analyze_brightness_cases.
    destruct (read_pixels file) as [pixels|e]; [|by_catch; reflexivity].
    destruct (avg_luminance pixels) as [a|e]; [|by_catch]; reflexivity.
  - intros file' pixels Hread Hread'.
    rewrite !analyze_brightness_cases, Hread, Hread'.
    destruct (avg_luminance pixels) as [a|e]; [|by_catch]; reflexivity.
  - rewrite analyze_brightness_cases.
    destruct (read_pixels file) as [pixels|e]; [|by_catch; reflexivity].
    destruct (avg_luminance pixels) as [a|e]; [|by_catch]; reflexivity.
Qed.

Lemma analyze_brightness_deterministic_witness :
  fst (@analyze_brightness float binary64 Raster.raster
         (grey_upload Byte.x02 Byte.x02 Byte.x80) started)
  = fst (@analyze_brightness float binary64 Raster.raster
           (upload [Byte.x01; Byte.x01; Byte.x04;
                    Byte.x80; Byte.x80; Byte.x80; Byte.x80; Byte.x80; Byte.x80;
                    Byte.x80; Byte.x80; Byte.x80; Byte.x80; Byte.x80; Byte.x80])
           (Server [] 7%N [Error_analyzing_brightness "earlier"])).
Proof.
  apply (proj1 (proj2 (proj2
           (@analyze_brightness_deterministic float binary64 Raster.raster
              (grey_upload Byte.x02 Byte.x02 Byte.x80) started
              (Server [] 7%N [Error_analyzing_brightness "earlier"]))))
           _ (repeat (128, 128, 128) 4));
    reflexivity.
Defined.

(** ** The status log *)

Lemma StatusCheck_each_length `{Pydantic} (factories : nat → string * Z) (k : nat)
    (docs : list (gmap string value)) (l : list StatusCheck) :
  StatusCheck_each factories k docs = Return l → length l = length docs.
Proof.
  revert k l. induction docs as [|d docs IH]; intros k l; simpl.
  - intros [= <-]. reflexivity.
  - destruct (StatusCheck_new _ _ d) as [o|e]; [|discriminate]. simpl.
    destruct (StatusCheck_each factories (S k) docs) as [os|e] eqn:E; [|discriminate].
    simpl. intros [= <-]. simpl. rewrite (IH (S k) os E). reflexivity.
Qed.

(** A document written by [create_status_check] reads back as the record
    it was written from, whatever the factories give. *)
Lemma StatusCheck_new_stored `{Pydantic} (uuid4 : string) (utcnow : Z) (n : N) (o : StatusCheck) :
  StatusCheck_new uuid4 utcnow (<["_id" := VObjectId n]> (StatusCheck_dict o)) = Return o.
Proof.
  unfold StatusCheck_new, StatusCheck_dict.
  repeat (rewrite lookup_insert_ne by discriminate || rewrite lookup_insert_eq).
  simpl. destruct o. reflexivity.
Qed.

Lemma StatusCheck_each_stored `{Pydantic} (factories : nat → string * Z) (k : nat) (n : N)
    (os : list StatusCheck) :
  StatusCheck_each factories k (stored n os) = Return os.
Proof.
  revert k n. induction os as [|o os IH]; intros k n; simpl; [reflexivity|].
  rewrite StatusCheck_new_stored. simpl. rewrite IH. reflexivity.
Qed.

Lemma take_stored (m : nat) (n : N) (os : list StatusCheck) :
  take m (stored n os) = stored n (take m os).
Proof.
  revert n os. induction m as [|m IH]; intros n [|o os]; simpl; try reflexivity.
  rewrite IH. reflexivity.
Qed.

(** The document of a record, as the database keeps it, is the document
    of the record with its timestamp cut to the millisecond. *)
Lemma StatusCheck_dict_bson (o : StatusCheck) :
  bson <$> StatusCheck_dict o = StatusCheck_dict (as_stored o).
Proof.
  unfold StatusCheck_dict. rewrite !fmap_insert, fmap_empty. reflexivity.
Qed.

Lemma create_status_check_stores {F : Type} `{Pydantic} (uuid4 : string) (utcnow : Z)
    (input : StatusCheckCreate) (s : server F) :
  let o := {| id_ := uuid4; client_name := input_client_name input;
              timestamp := utcnow |} in
  create_status_check uuid4 utcnow input s
  = (Return o,
     Server (status_checks s ++ stored (next_object_id s) [as_stored o])
            (N.succ (next_object_id s)) (logger s)).
Proof.
  cbn zeta. unfold create_status_check, insert_one.
  unfold mbind, handler_bind, mret, handler_ret, lift.
  assert (E : StatusCheck_new uuid4 utcnow (StatusCheckCreate_dict input)
              = Return {| id_ := uuid4; client_name := input_client_name input;
                          timestamp := utcnow |}) by reflexivity.
  rewrite E. cbn [stored]. rewrite StatusCheck_dict_bson. reflexivity.
Qed.

(** C10.  [get_status_checks] returns at most 1000 records: whatever the
    collection holds, the records returned are those of its first 1000
    documents, their number is the smaller of 1000 and the size of the
    collection, and the documents beyond are left out without an error;
    on a collection that holds the documents of a list of records the
    call returns the first 1000 of these records.  The collection is not
    changed. *)
Theorem get_status_checks_at_most_1000 {F : Type} `{Pydantic}
    (factories : nat → string * Z) (s : server F) :
  (∀ l, fst (get_status_checks factories s) = Return l →
     (length l <= 1000)%nat
     ∧ length l = Nat.min 1000 (length (status_checks s))
     ∧ StatusCheck_each factories 0 (take 1000 (status_checks s)) = Return l)
  ∧ (∀ n os, status_checks s = stored n os →
       fst (get_status_checks factories s) = Return (take 1000 os))
  ∧ snd (get_status_checks factories s) = s.
Proof.
  unfold get_status_checks, to_list. simpl. split; [|split; [|reflexivity]].
  - intros l Hl. pose proof (StatusCheck_each_length _ _ _ _ Hl) as Hlen.
    rewrite length_take in Hlen. repeat split; [lia | exact Hlen | exact Hl].
  - intros n os ->. rewrite take_stored. apply StatusCheck_each_stored.
Qed.

Lemma get_status_checks_at_most_1000_witness :
  ∃ l, fst (@get_status_checks float epoch_parser (fun _ => ("", 0))
              (Server (stored 0 (repeat {| id_ := "a"; client_name := "c";
                                           timestamp := 1 |} 1003)) 1003 []))
       = Return l
       ∧ length l = 1000%nat.
Proof.
  eexists. split.
  - apply (proj1 (proj2 (@get_status_checks_at_most_1000 float epoch_parser
                           (fun _ => ("", 0))
                           (Server (stored 0 (repeat {| id_ := "a"; client_name := "c";
                                                        timestamp := 1 |} 1003))
                                   1003 []))) 0%N).
    reflexivity.
  - rewrite length_take, repeat_length. reflexivity.
Defined.

(** ** Uniform images *)

Section UniformFacts.
Context {F : Type} `{PyFloat F}.
Local Open Scope py_scope.

Lemma uniform_snoc (c : Z) (n : nat) : uniform c (S n) = uniform c n ++ [(c, c, c)].
Proof. unfold uniform. apply repeat_cons. Qed.

(** Every average of [m+1], ..., [m+n] copies is among [uniform_avgs]. *)
Lemma uniform_avgs_complete (c : Z) (n m j : nat) :
  (1 <= j <= n)%nat →
  ∃ a, avg_luminance (uniform c (m + j)) = Return a
       ∧ In a (uniform_avgs (c, c, c) n (Z.of_nat m) (total_luminance (uniform c m))).
Proof.
  revert m j. induction n as [|n IH]; intros m j Hj; [lia|].
  destruct (Nat.eq_dec j 1%nat) as [->|Hne].
  - eexists. split; [|left; reflexivity].
    replace (m + 1)%nat with (S m) by lia.
    unfold avg_luminance, truediv, total_luminance.
    rewrite len_nonzero by (unfold uniform; discriminate).
    rewrite uniform_snoc, total_luminance_from_app. simpl.
    unfold len. rewrite length_app. simpl length.
    replace (Z.of_nat (length (uniform c m) + 1)) with (Z.of_nat m + 1)%Z
      by (unfold uniform; rewrite repeat_length; lia).
    reflexivity.
  - destruct (IH (S m) (j - 1)%nat) as (a & Ha & Hin); [lia|].
    exists a. split.
    + replace (m + j)%nat with (S m + (j - 1))%nat by lia. exact Ha.
    + cbn [uniform_avgs]. right.
      assert (E : total_luminance (uniform c (S m))
                  = PyFlt (as_float (total_luminance (uniform c m))
                           + luminance (c, c, c))).
      { unfold total_luminance.
        rewrite uniform_snoc, total_luminance_from_app. reflexivity. }
      rewrite <- E.
      replace (Z.of_nat m + 1)%Z with (Z.of_nat (S m)) by lia.
      exact Hin.
Qed.

End UniformFacts.

Lemma all_good_sound (good : float → bool) (known l : list float) :
  (∀ y, In y known → good y = true) →
  all_good good known l = true → ∀ a, In a l → good a = true.
Proof.
  revert known. induction l as [|x l IH]; intros known Hknown Hall a Hin;
    [destruct Hin|].
  simpl in Hall. destruct (existsb (PrimFloat.Leibniz.eqb x) known) eqn:Ex.
  - destruct Hin as [<-|Hin]; [|apply (IH known Hknown Hall a Hin)].
    apply existsb_exists in Ex as (y & Hy & Heq).
    apply FloatAxioms.Leibniz.eqb_spec in Heq as ->. apply Hknown, Hy.
  - apply andb_true_iff in Hall as [Hx Hall].
    destruct Hin as [<-|Hin]; [exact Hx|].
    apply (IH (x :: known)); [|exact Hall|exact Hin].
    intros y [<-|Hy]; [exact Hx | apply Hknown, Hy].
Qed.

(** On binary64, what holds of the averages of one pass holds of the
    average of every uniform image of up to that many pixels. *)
Lemma uniform_binary64 (good : float → bool) (c : Z) (N n : nat) :
  all_good good [] (@uniform_avgs float binary64 (c, c, c) N 0 (PyInt 0)) = true →
  (1 <= n <= N)%nat →
  ∃ a, @avg_luminance float binary64 (uniform c n) = Return a ∧ good a = true.
Proof.
  intros Hall Hn.
  destruct (@uniform_avgs_complete float binary64 c N 0 n Hn) as (a & Ha & Hin).
  exists a. split; [exact Ha|].
  apply (all_good_sound good [] _ (fun y (Hy : In y []) => match Hy with end) Hall a Hin).
Qed.

(** On binary64 the three weights do not sum to 1: the average of a
    uniform image of value 128 is just below 128 before it is rounded. *)
Remark uniform_128_unrounded :
  @avg_luminance float binary64 (uniform 128 1) = Return 127.99999999999999%float
  ∧ float_round2 127.99999999999999 = 128%float.
Proof. split; vm_compute; reflexivity. Qed.

Lemma uniform_128_checked :
  all_good (rounded_result_is 128 12.27) []
    (@uniform_avgs float binary64 (128, 128, 128) (Z.to_nat 40000) 0 (PyInt 0)) = true.
Proof. vm_compute. reflexivity. Qed.

Lemma uniform_0_checked :
  all_good (rounded_result_is 0 2) []
    (@uniform_avgs float binary64 (0, 0, 0) (Z.to_nat 40000) 0 (PyInt 0)) = true.
Proof. vm_compute. reflexivity. Qed.

Lemma uniform_255_checked :
  all_good (rounded_result_is 255 17) []
    (@uniform_avgs float binary64 (255, 255, 255) (Z.to_nat 40000) 0 (PyInt 0)) = true.
Proof. vm_compute. reflexivity. Qed.

Lemma Qsum_uniform (c : Z) (n : nat) :
  (Qsum (map luma_BT601 (uniform c n)) == inject_Z (Z.of_nat n) * inject_Z c)%Q.
Proof.
  induction n as [|n IH].
  - simpl. ring.
  - change (uniform c (S n)) with ((c, c, c) :: uniform c n).
    cbn [map Qsum fold_right]. fold (Qsum (map luma_BT601 (uniform c n))).
    rewrite IH, Nat2Z.inj_succ. unfold Z.succ. rewrite inject_Z_plus.
    unfold luma_BT601. ring.
Qed.

Lemma uniform_exact (c : Z) (n : nat) :
  (0 < n)%nat →
  ∃ a : Q, @avg_luminance Q exact (uniform c n) = Return a ∧ (a == inject_Z c)%Q.
Proof.
  intros Hn.
  assert (Hne : uniform c n ≠ []) by (destruct n; [lia | discriminate]).
  destruct (avg_luminance_exact_mean (uniform c n) Hne) as (a & Ha & Hmean).
  exists a. split; [exact Ha|].
  rewrite Hmean. unfold mean_luma, uniform. rewrite repeat_length.
  fold (uniform c n). rewrite Qsum_uniform. field.
  change 0%Q with (inject_Z 0). rewrite inject_Z_injective. lia.
Qed.

(** The answer of the handler on a file that decodes to a uniform image,
    on binary64. *)
Lemma uniform_answer `{PIL} (c : Z) (avg ev_ : float) (n : nat)
    (file : UploadFile) (s : server float) :
  all_good (rounded_result_is avg ev_) []
    (@uniform_avgs float binary64 (c, c, c) (Z.to_nat 40000) 0 (PyInt 0)) = true →
  (0 < n)%nat → Z.of_nat n <= 40000 →
  read_pixels file = Return (uniform c n) →
  fst (@analyze_brightness float binary64 _ file s)
  = Return (BrightnessResult avg ev_ (Z.of_nat n)).
Proof.
  intros Hall Hn Hmax Hread.
  destruct (uniform_binary64 _ c (Z.to_nat 40000) n Hall) as (a & Ha & Hgood); [lia|].
  rewrite analyze_brightness_cases, Hread, Ha. cbn [fst].
  apply andb_true_iff in Hgood as [Havg Hev].
  apply FloatAxioms.Leibniz.eqb_spec in Havg, Hev. rewrite Havg, Hev.
  unfold len, uniform. rewrite repeat_length. reflexivity.
Qed.

(** C7.  On a uniform image, every pixel [(c, c, c)], the average
    luminance is [c]: exactly so in exact arithmetic, where the weights
    sum to 1 and [ev] at 128 is [12 + (8/60)*2], rounded 12.27; and on
    binary64 the answer of the handler, for any such image of up to
    40,000 pixels, is [avg_luminance] 128.00 and [ev] 12.27 for
    [c = 128], 0.00 and 2.00 for [c = 0], 255.00 and 17.00 for
    [c = 255], with the number of pixels as [pixel_count]. *)
Theorem uniform_image_results :
  (∀ (c : Z) (n : nat), (0 < n)%nat →
     ∃ a : Q, @avg_luminance Q exact (uniform c n) = Return a ∧ (a == inject_Z c)%Q)
  ∧ ((@ev Q exact (inject_Z 128) == 12 + (8 # 60) * 2)%Q
     ∧ (@round2 Q exact (@ev Q exact (inject_Z 128)) == 1227 # 100)%Q
     ∧ (@round2 Q exact (@ev Q exact (inject_Z 0)) == 2)%Q
     ∧ (@round2 Q exact (@ev Q exact (inject_Z 255)) == 17)%Q)
  ∧ (∀ `{PIL} (file : UploadFile) (s : server float) (n : nat),
       (0 < n)%nat → Z.of_nat n <= 40000 →
       (read_pixels file = Return (uniform 128 n) →
        fst (@analyze_brightness float binary64 _ file s)
        = Return (BrightnessResult 128%float 12.27%float (Z.of_nat n)))
       ∧ (read_pixels file = Return (uniform 0 n) →
          fst (@analyze_brightness float binary64 _ file s)
          = Return (BrightnessResult 0%float 2%float (Z.of_nat n)))
       ∧ (read_pixels file = Return (uniform 255 n) →
          fst (@analyze_brightness float binary64 _ file s)
          = Return (BrightnessResult 255%float 17%float (Z.of_nat n)))).
Proof.
  split; [exact uniform_exact|]. split; [repeat split; reflexivity|].
  intros PIL0 file s n Hn Hmax. repeat split; intros Hread.
  - apply (uniform_answer 128 _ _ n file s uniform_128_checked Hn Hmax Hread).
  - apply (uniform_answer 0 _ _ n file s uniform_0_checked Hn Hmax Hread).
  - apply (uniform_answer 255 _ _ n file s uniform_255_checked Hn Hmax Hread).
Qed.

Lemma uniform_image_results_witness :
  fst (@analyze_brightness float binary64 Raster.raster
         (grey_upload Byte.x03 Byte.x02 Byte.x80) started)
  = Return (BrightnessResult 128%float 12.27%float 6).
Proof.
  apply (proj1 (proj2 (proj2 uniform_image_results) Raster.raster
                  (grey_upload Byte.x03 Byte.x02 Byte.x80) started 6%nat
                  ltac:(lia) ltac:(lia))).
  reflexivity.
Defined.

(** * Further properties *)

(** ** The range of the curve *)

Lemma ev_exact_bounds (L : Q) :
  (0 <= L)%Q → (L <= 255)%Q → (2 <= @ev Q exact L)%Q ∧ (@ev Q exact L <= 17)%Q.
Proof.
  intros H0 H255. unfold ev. exact_arith.
  destruct (Qltb L (30 # 1)) eqn:A1; destruct (Qltb L (60 # 1)) eqn:A2;
    destruct (Qltb L (120 # 1)) eqn:A3; destruct (Qltb L (180 # 1)) eqn:A4;
    order_facts; split; lra.
Qed.

(** X1.  On [0, 255] the exposure value lies in [2, 17] (in exact
    arithmetic). *)
Theorem ev_range (L : Q) :
  (0 <= L)%Q → (L <= 255)%Q → (2 <= @ev Q exact L)%Q ∧ (@ev Q exact L <= 17)%Q.
Proof. apply ev_exact_bounds. Qed.

Lemma ev_range_witness :
  (2 <= @ev Q exact (77 # 2))%Q ∧ (@ev Q exact (77 # 2) <= 17)%Q.
Proof. apply (ev_range (77 # 2)); vm_compute; discriminate. Defined.

Lemma ev_exact_increasing (L1 L2 : Q) :
  (L1 < L2)%Q → (@ev Q exact L1 < @ev Q exact L2)%Q.
Proof.
  intros Hlt. unfold ev. exact_arith.
  destruct (Qltb L1 (30 # 1)) eqn:A1; destruct (Qltb L1 (60 # 1)) eqn:A2;
    destruct (Qltb L1 (120 # 1)) eqn:A3; destruct (Qltb L1 (180 # 1)) eqn:A4;
    destruct (Qltb L2 (30 # 1)) eqn:B1; destruct (Qltb L2 (60 # 1)) eqn:B2;
    destruct (Qltb L2 (120 # 1)) eqn:B3; destruct (Qltb L2 (180 # 1)) eqn:B4;
    order_facts; lra.
Qed.

(** ** The range and the order of the average *)

Lemma inject_Z_le (x y : Z) : x <= y → (inject_Z x <= inject_Z y)%Q.
Proof. rewrite <- Zle_Qle. trivial. Qed.

Lemma luma_BT601_range (p : pixel) :
  eight_bit p → (0 <= luma_BT601 p)%Q ∧ (luma_BT601 p <= 255)%Q.
Proof.
  destruct p as [[r g] b]. unfold eight_bit, luma_BT601.
  intros ([Hr0 Hr] & [Hg0 Hg] & [Hb0 Hb]).
  apply inject_Z_le in Hr0, Hr, Hg0, Hg, Hb0, Hb.
  change (inject_Z 0) with 0%Q in *. change (inject_Z 255) with 255%Q in *.
  split; lra.
Qed.

Lemma luma_BT601_le (p q : pixel) :
  pixel_le p q → (luma_BT601 p <= luma_BT601 q)%Q.
Proof.
  destruct p as [[r g] b], q as [[r' g'] b']. unfold pixel_le, luma_BT601.
  intros (Hr & Hg & Hb). apply inject_Z_le in Hr, Hg, Hb. lra.
Qed.

Lemma Qsum_range (pixels : list pixel) :
  Forall eight_bit pixels →
  (0 <= Qsum (map luma_BT601 pixels))%Q
  ∧ (Qsum (map luma_BT601 pixels) <= 255 * inject_Z (Z.of_nat (length pixels)))%Q.
Proof.
  induction 1 as [|p pixels Hp _ [IH0 IH]].
  - simpl. split; [apply Qle_refl | vm_compute; discriminate].
  - cbn [map Qsum fold_right length].
    fold (Qsum (map luma_BT601 pixels)).
    rewrite Nat2Z.inj_succ. unfold Z.succ. rewrite inject_Z_plus.
    change (inject_Z 1) with 1%Q.
    destruct (luma_BT601_range p Hp). split; lra.
Qed.

Lemma Qsum_le (pixels pixels' : list pixel) :
  Forall2 pixel_le pixels pixels' →
  (Qsum (map luma_BT601 pixels) <= Qsum (map luma_BT601 pixels'))%Q.
Proof.
  induction 1 as [|p q pixels pixels' Hpq _ IH].
  - apply Qle_refl.
  - cbn [map Qsum fold_right].
    fold (Qsum (map luma_BT601 pixels)). fold (Qsum (map luma_BT601 pixels')).
    pose proof (luma_BT601_le p q Hpq). lra.
Qed.

Lemma Qsum_Permutation (pixels pixels' : list pixel) :
  Permutation pixels pixels' →
  (Qsum (map luma_BT601 pixels) == Qsum (map luma_BT601 pixels'))%Q.
Proof.
  induction 1 as [|p l l' _ IH|p q l|l l' l'' _ IH1 _ IH2].
  - reflexivity.
  - cbn [map Qsum fold_right].
    fold (Qsum (map luma_BT601 l)). fold (Qsum (map luma_BT601 l')).
    rewrite IH. reflexivity.
  - cbn [map Qsum fold_right]. ring.
  - rewrite IH1. exact IH2.
Qed.

Lemma count_positive (pixels : list pixel) :
  pixels ≠ [] → (0 < inject_Z (Z.of_nat (length pixels)))%Q.
Proof.
  intros Hne. change 0%Q with (inject_Z 0). rewrite <- Zlt_Qlt.
  destruct pixels; [congruence | simpl length; lia].
Qed.

Lemma mean_luma_range (pixels : list pixel) :
  pixels ≠ [] → Forall eight_bit pixels →
  (0 <= mean_luma pixels)%Q ∧ (mean_luma pixels <= 255)%Q.
Proof.
  intros Hne H8. unfold mean_luma.
  destruct (Qsum_range pixels H8) as [H0 H255].
  pose proof (count_positive pixels Hne) as Hn. split.
  - apply Qle_shift_div_l; [exact Hn|]. lra.
  - apply Qle_shift_div_r; [exact Hn|]. lra.
Qed.

(** X3.  On a non-empty sequence of eight-bit pixels the average
    luminance lies in [0, 255], the range the curve is defined on, so
    that its exposure value lies in [2, 17] (in exact arithmetic). *)
Theorem avg_luminance_range (pixels : list pixel) :
  pixels ≠ [] → Forall eight_bit pixels →
  ∃ a : Q, @avg_luminance Q exact pixels = Return a
    ∧ (0 <= a)%Q ∧ (a <= 255)%Q
    ∧ (2 <= @ev Q exact a)%Q ∧ (@ev Q exact a <= 17)%Q.
Proof.
  intros Hne H8.
  destruct (avg_luminance_exact_mean pixels Hne) as (a & Ha & Hmean).
  destruct (mean_luma_range pixels Hne H8) as [H0 H255].
  rewrite <- Hmean in H0, H255.
  exists a. split; [exact Ha|]. split; [exact H0|]. split; [exact H255|].
  apply ev_exact_bounds; assumption.
Qed.

Lemma avg_luminance_range_witness :
  ∃ a : Q, @avg_luminance Q exact [(255, 0, 17); (3, 200, 90)] = Return a
    ∧ (0 <= a)%Q ∧ (a <= 255)%Q
    ∧ (2 <= @ev Q exact a)%Q ∧ (@ev Q exact a <= 17)%Q.
Proof.
  apply (avg_luminance_range [(255, 0, 17); (3, 200, 90)]).
  - discriminate.
  - repeat constructor; lia.
Defined.

Lemma Return_float_differ (c c' : outcome float) (a b : float) :
  c = Return a → c' = Return b → PrimFloat.Leibniz.eqb a b = false → c ≠ c'.
Proof.
  intros -> -> Hab E.
  pose proof (f_equal (fun o => match o with Return x => x | Raise _ => a end) E)
    as Heq.
  simpl in Heq. apply FloatAxioms.Leibniz.eqb_spec in Heq. congruence.
Qed.

(** X4.  In exact arithmetic the average luminance does not depend on
    the order of the pixels; on binary64 it can: the floats of a
    sequence and of its reverse may differ. *)
Theorem avg_luminance_order :
  (∀ pixels pixels' : list pixel,
     pixels ≠ [] → Permutation pixels pixels' →
     ∃ a a' : Q, @avg_luminance Q exact pixels = Return a
       ∧ @avg_luminance Q exact pixels' = Return a' ∧ (a == a')%Q)
  ∧ (∃ pixels pixels' : list pixel,
       Permutation pixels pixels'
       ∧ @avg_luminance float binary64 pixels ≠ @avg_luminance float binary64 pixels').
Proof.
  split.
  - intros pixels pixels' Hne Hperm.
    assert (Hne' : pixels' ≠ []).
    { intros ->. apply Permutation_sym, Permutation_nil in Hperm. congruence. }
    destruct (avg_luminance_exact_mean pixels Hne) as (a & Ha & Hmean).
    destruct (avg_luminance_exact_mean pixels' Hne') as (a' & Ha' & Hmean').
    exists a, a'. split; [exact Ha|]. split; [exact Ha'|].
    rewrite Hmean, Hmean'. unfold mean_luma.
    rewrite (Qsum_Permutation pixels pixels' Hperm), (Permutation_length Hperm).
    reflexivity.
  - exists [(1, 1, 1); (1, 0, 1); (0, 2, 2)], [(0, 2, 2); (1, 0, 1); (1, 1, 1)].
    split.
    + apply (Permutation_rev [(1, 1, 1); (1, 0, 1); (0, 2, 2)]).
    + apply (Return_float_differ _ _ _ _ eq_refl eq_refl). vm_compute. reflexivity.
Qed.

Lemma avg_luminance_order_witness :
  ∃ a a' : Q, @avg_luminance Q exact [(9, 8, 7); (1, 2, 3)] = Return a
    ∧ @avg_luminance Q exact [(1, 2, 3); (9, 8, 7)] = Return a' ∧ (a == a')%Q.
Proof.
  apply (proj1 avg_luminance_order [(9, 8, 7); (1, 2, 3)] [(1, 2, 3); (9, 8, 7)]).
  - discriminate.
  - apply perm_swap.
Defined.

(** X5.  A brighter image never gets a lower answer: if no channel of
    any pixel is lowered, the average luminance and the exposure value
    do not decrease (in exact arithmetic). *)
Theorem brighter_image_not_darker (pixels pixels' : list pixel) :
  pixels ≠ [] → Forall2 pixel_le pixels pixels' →
  ∃ a a' : Q, @avg_luminance Q exact pixels = Return a
    ∧ @avg_luminance Q exact pixels' = Return a'
    ∧ (a <= a')%Q ∧ (@ev Q exact a <= @ev Q exact a')%Q.
Proof.
  intros Hne Hle.
  assert (Hne' : pixels' ≠ []).
  { intros ->. inversion Hle. congruence. }
  destruct (avg_luminance_exact_mean pixels Hne) as (a & Ha & Hmean).
  destruct (avg_luminance_exact_mean pixels' Hne') as (a' & Ha' & Hmean').
  assert (Haa' : (a <= a')%Q).
  { rewrite Hmean, Hmean'. unfold mean_luma.
    rewrite <- (Forall2_length _ _ _ Hle).
    pose proof (count_positive pixels Hne) as Hn.
    pose proof (Qsum_le pixels pixels' Hle) as Hsum.
    unfold Qdiv. apply Qmult_le_compat_r; [exact Hsum|].
    apply Qlt_le_weak, Qinv_lt_0_compat, Hn. }
  exists a, a'. split; [exact Ha|]. split; [exact Ha'|]. split; [exact Haa'|].
  apply ev_exact_monotone, Haa'.
Qed.

Lemma brighter_image_not_darker_witness :
  ∃ a a' : Q, @avg_luminance Q exact [(10, 20, 30); (0, 0, 0)] = Return a
    ∧ @avg_luminance Q exact [(10, 21, 30); (0, 0, 200)] = Return a'
    ∧ (a <= a')%Q ∧ (@ev Q exact a <= @ev Q exact a')%Q.
Proof.
  apply (brighter_image_not_darker [(10, 20, 30); (0, 0, 0)] [(10, 21, 30); (0, 0, 200)]).
  - discriminate.
  - repeat constructor; lia.
Defined.

(** ** Rounding to two places *)

Lemma round_half_even_cases (n : Z) (d : positive) :
  let k := round_half_even (n # d) in
  (k = n / Zpos d ∨ k = n / Zpos d + 1)
  ∧ 2 * (k * Zpos d - n) <= Zpos d
  ∧ 2 * (n - k * Zpos d) <= Zpos d.
Proof.
  unfold round_half_even. cbn [Qnum Qden].
  pose proof (Z.div_mod n (Zpos d) ltac:(lia)) as Hdm.
  pose proof (Z.mod_pos_bound n (Zpos d) ltac:(lia)) as Hr.
  set (f := n / Zpos d) in *. set (r := n mod Zpos d) in *.
  destruct (Z.compare_spec (2 * r) (Zpos d)) as [Heq|Hlt|Hgt].
  - destruct (Z.even f); (split; [auto|]); nia.
  - split; [auto|]. nia.
  - split; [auto|]. nia.
Qed.

(** The rounded value is within half a unit of the value. *)
Lemma round_half_even_near (y : Q) :
  (inject_Z (round_half_even y) - y <= 1 # 2)%Q
  ∧ (y - inject_Z (round_half_even y) <= 1 # 2)%Q.
Proof.
  destruct y as [n d].
  destruct (round_half_even_cases n d) as (_ & Hup & Hdown).
  set (k := round_half_even (n # d)) in *.
  unfold Qle, Qminus, Qplus, Qopp, inject_Z. cbn [Qnum Qden].
  rewrite ?Pos.mul_1_l, ?Pos.mul_1_r, ?Z.mul_1_r. split; lia.
Qed.

(** Rounding does not cross an integer. *)
Lemma round_half_even_bounds (y : Q) (j : Z) :
  ((inject_Z j <= y)%Q → j <= round_half_even y)
  ∧ ((y <= inject_Z j)%Q → round_half_even y <= j).
Proof.
  destruct y as [n d].
  destruct (round_half_even_cases n d) as (Hk & Hup & Hdown).
  set (k := round_half_even (n # d)) in *.
  pose proof (Z.div_mod n (Zpos d) ltac:(lia)) as Hdm.
  pose proof (Z.mod_pos_bound n (Zpos d) ltac:(lia)) as Hr.
  unfold Qle, inject_Z. cbn [Qnum Qden]. rewrite ?Z.mul_1_r.
  split; intros Hj; nia.
Qed.

Lemma round2_exact_near (x : Q) :
  (@round2 Q exact x - x <= 1 # 200)%Q ∧ (x - @round2 Q exact x <= 1 # 200)%Q.
Proof.
  destruct (round_half_even_near (x * 100)) as [Hup Hdown].
  cbn [round2 exact].
  assert (E : (round_half_even (x * 100) # 100
               == inject_Z (round_half_even (x * 100)) * (1 # 100))%Q).
  { unfold Qeq, Qmult, inject_Z. cbn [Qnum Qden]. lia. }
  rewrite E. split; lra.
Qed.

Lemma round2_exact_bounds (x : Q) (j : Z) :
  ((inject_Z j * (1 # 100) <= x)%Q → (inject_Z j * (1 # 100) <= @round2 Q exact x)%Q)
  ∧ ((x <= inject_Z j * (1 # 100))%Q → (@round2 Q exact x <= inject_Z j * (1 # 100))%Q).
Proof.
  destruct (round_half_even_bounds (x * 100) j) as [Hlo Hhi].
  cbn [round2 exact].
  assert (E : (round_half_even (x * 100) # 100
               == inject_Z (round_half_even (x * 100)) * (1 # 100))%Q).
  { unfold Qeq, Qmult, inject_Z. cbn [Qnum Qden]. lia. }
  rewrite E. split; intros Hx.
  - apply Qmult_le_compat_r; [|discriminate].
    apply inject_Z_le, Hlo. lra.
  - apply Qmult_le_compat_r; [|discriminate].
    apply inject_Z_le, Hhi. lra.
Qed.

Lemma round2_exact_ge (x b : Q) (j : Z) :
  (b == inject_Z j * (1 # 100))%Q → (b <= x)%Q → (b <= @round2 Q exact x)%Q.
Proof.
  intros Hb Hx. rewrite Hb in *. apply (proj1 (round2_exact_bounds x j)), Hx.
Qed.

Lemma round2_exact_le (x b : Q) (j : Z) :
  (b == inject_Z j * (1 # 100))%Q → (x <= b)%Q → (@round2 Q exact x <= b)%Q.
Proof.
  intros Hb Hx. rewrite Hb in *. apply (proj2 (round2_exact_bounds x j)), Hx.
Qed.

(** ** The result of a successful call *)

(** A successful call is one whose pixel sequence is not empty. *)
Lemma analyze_brightness_success {F : Type} `{PyFloat F} `{PIL}
    (file : UploadFile) (s : server F) (a e : F) (n : Z) :
  fst (analyze_brightness file s) = Return (BrightnessResult a e n) →
  ∃ pixels a0, read_pixels file = Return pixels ∧ pixels ≠ []
    ∧ avg_luminance pixels = Return a0
    ∧ a = round2 a0 ∧ e = round2 (ev a0) ∧ n = len pixels.
Proof.
  rewrite analyze_brightness_cases.
  destruct (read_pixels file) as [pixels|x]; [|by_catch; discriminate].
  destruct (avg_luminance pixels) as [a0|x] eqn:Ha; [|by_catch; discriminate].
  cbn [fst]. intros [= <- <- <-].
  exists pixels, a0. split; [reflexivity|]. split.
  - intros ->. rewrite avg_luminance_empty in Ha. discriminate.
  - split; [exact Ha|]. repeat split.
Qed.

(** X6.  The call succeeds exactly when the image has at least one
    pixel, and then [pixel_count] is the number of pixels, at least 1. *)
Theorem success_iff_nonempty {F : Type} `{PyFloat F} `{PIL}
    (file : UploadFile) (s : server F) :
  ((∃ a e n, fst (analyze_brightness file s) = Return (BrightnessResult a e n))
   ↔ (∃ pixels, read_pixels file = Return pixels ∧ pixels ≠ []))
  ∧ (∀ a e n pixels,
       fst (analyze_brightness file s) = Return (BrightnessResult a e n) →
       read_pixels file = Return pixels →
       n = Z.of_nat (length pixels) ∧ 1 <= n).
Proof.
  split; [split|].
  - intros (a & e & n & Hrun).
    destruct (analyze_brightness_success file s a e n Hrun)
      as (pixels & a0 & Hread & Hne & _).
    exists pixels. split; assumption.
  - intros (pixels & Hread & Hne).
    rewrite analyze_brightness_cases, Hread, (avg_luminance_nonempty pixels Hne).
    cbn [fst]. eauto.
  - intros a e n pixels Hrun Hread.
    destruct (analyze_brightness_success file s a e n Hrun)
      as (pixels' & a0 & Hread' & Hne & _ & _ & _ & ->).
    rewrite Hread in Hread'. injection Hread' as <-.
    unfold len. split; [reflexivity|].
    destruct pixels; [congruence | simpl length; lia].
Qed.

Lemma success_iff_nonempty_witness :
  ∃ a e n,
    fst (@analyze_brightness float binary64 Raster.raster
           (grey_upload Byte.x02 Byte.x01 Byte.x40) started)
    = Return (BrightnessResult a e n).
Proof.
  apply (proj2 (proj1 (@success_iff_nonempty float binary64 Raster.raster
                         (grey_upload Byte.x02 Byte.x01 Byte.x40) started))).
  exists [(64, 64, 64); (64, 64, 64)]. split; [reflexivity | discriminate].
Defined.

(** X7.  On an image of eight-bit pixels the fields of a successful
    result are within their ranges: [avg_luminance] in [0, 255], [ev] in
    [2, 17] and [pixel_count] at least 1 (in exact arithmetic, after the
    rounding to two places). *)
Theorem result_within_ranges `{PIL} (file : UploadFile) (s : server Q)
    (pixels : list pixel) (a e : Q) (n : Z) :
  read_pixels file = Return pixels → Forall eight_bit pixels →
  fst (@analyze_brightness Q exact _ file s) = Return (BrightnessResult a e n) →
  (0 <= a)%Q ∧ (a <= 255)%Q ∧ (2 <= e)%Q ∧ (e <= 17)%Q ∧ 1 <= n.
Proof.
  intros Hread H8 Hrun.
  destruct (analyze_brightness_success file s a e n Hrun)
    as (pixels' & a0 & Hread' & Hne & Ha0 & -> & -> & ->).
  rewrite Hread in Hread'. injection Hread' as <-.
  destruct (avg_luminance_exact_mean pixels Hne) as (a1 & Ha1 & Hmean).
  rewrite Ha0 in Ha1. injection Ha1 as <-.
  destruct (mean_luma_range pixels Hne H8) as [H0 H255].
  rewrite <- Hmean in H0, H255.
  destruct (ev_exact_bounds a0 H0 H255) as [H2 H17].
  repeat split.
  - apply (round2_exact_ge a0 0 0); [reflexivity | exact H0].
  - apply (round2_exact_le a0 255 25500); [reflexivity | exact H255].
  - apply (round2_exact_ge (ev a0) 2 200); [reflexivity | exact H2].
  - apply (round2_exact_le (ev a0) 17 1700); [reflexivity | exact H17].
  - unfold len. destruct pixels; [congruence | simpl length; lia].
Qed.

Lemma result_within_ranges_witness :
  ∃ a e n,
    fst (@analyze_brightness Q exact Raster.raster
           (grey_upload Byte.x02 Byte.x01 Byte.x40) started)
    = Return (BrightnessResult a e n)
    ∧ (0 <= a)%Q ∧ (a <= 255)%Q ∧ (2 <= e)%Q ∧ (e <= 17)%Q ∧ 1 <= n.
Proof.
  do 3 eexists. split; [reflexivity|].
  apply (@result_within_ranges Raster.raster
           (grey_upload Byte.x02 Byte.x01 Byte.x40) started
           [(64, 64, 64); (64, 64, 64)]).
  - reflexivity.
  - repeat constructor; lia.
  - reflexivity.
Defined.

(** X8.  The two numbers of a successful result are the average and its
    exposure value rounded to two places, each less than one unit of the
    last place from what it was rounded from: [avg_luminance] is less
    than 0.01 from the mean luma of the pixels, and [ev] less than 0.01
    from the curve at the unrounded average (in exact arithmetic).  Half
    a unit is not a bound of the answer on binary64: for the one pixel
    (5, 0, 0), of mean luma 1.495, the handler answers 1.49 there, and
    1.5 in exact arithmetic. *)
Theorem result_rounding_error `{PIL} (file : UploadFile) (s : server Q)
    (pixels : list pixel) (a e : Q) (n : Z) :
  read_pixels file = Return pixels →
  fst (@analyze_brightness Q exact _ file s) = Return (BrightnessResult a e n) →
  (a - mean_luma pixels < 1 # 100)%Q ∧ (mean_luma pixels - a < 1 # 100)%Q
  ∧ (∃ a0 : Q, (a0 == mean_luma pixels)%Q
       ∧ (e - @ev Q exact a0 < 1 # 100)%Q ∧ (@ev Q exact a0 - e < 1 # 100)%Q)
  ∧ (mean_luma [(5, 0, 0)]%Z == 299 # 200)%Q
  ∧ (∃ a64 : float,
       @avg_luminance float binary64 [(5, 0, 0)] = Return a64
       ∧ float_round2 a64 = 1.49%float
       ∧ ∃ q : Q, Q_of_float (float_round2 a64) = Some q
           ∧ (1 # 200 < mean_luma [(5, 0, 0)]%Z - q)%Q
           ∧ (mean_luma [(5, 0, 0)]%Z - q < 1 # 100)%Q)
  ∧ (∃ aQ : Q, @avg_luminance Q exact [(5, 0, 0)] = Return aQ
       ∧ (@round2 Q exact aQ == 3 # 2)%Q).
Proof.
  intros Hread Hrun.
  destruct (analyze_brightness_success file s a e n Hrun)
    as (pixels' & a0 & Hread' & Hne & Ha0 & -> & -> & ->).
  rewrite Hread in Hread'. injection Hread' as <-.
  destruct (avg_luminance_exact_mean pixels Hne) as (a1 & Ha1 & Hmean).
  rewrite Ha0 in Ha1. injection Ha1 as <-.
  destruct (round2_exact_near a0) as [Hup Hdown].
  destruct (round2_exact_near (@ev Q exact a0)) as [Hup' Hdown'].
  split; [rewrite <- Hmean; lra|]. split; [rewrite <- Hmean; lra|].
  split; [exists a0; split; [exact Hmean|]; split; lra|].
  split; [reflexivity|]. split.
  - eexists. split; [reflexivity|]. split; [vm_compute; reflexivity|].
    eexists. split; [vm_compute; reflexivity|]. split; reflexivity.
  - eexists. split; [reflexivity|]. reflexivity.
Qed.

Lemma result_rounding_error_witness :
  ∃ a e n,
    fst (@analyze_brightness Q exact Raster.raster
           (grey_upload Byte.x02 Byte.x01 Byte.x40) started)
    = Return (BrightnessResult a e n)
    ∧ (a - mean_luma [(64, 64, 64); (64, 64, 64)]%Z < 1 # 100)%Q.
Proof.
  do 3 eexists. split; [reflexivity|].
  apply (proj1 (@result_rounding_error Raster.raster
                  (grey_upload Byte.x02 Byte.x01 Byte.x40) started
                  [(64, 64, 64); (64, 64, 64)] _ _ _ eq_refl eq_refl)).
Defined.

(** ** The log *)

(** X9.  A call of [analyze_brightness] that returns adds exactly one
    record to the log, after those already there: on success the record
    holds the average and the exposure value the answer was rounded
    from, each formatted with two decimals, on a caught failure the
    message of the error payload.  A call that raises, as one whose read
    is cancelled, raises what is not an [Exception] and logs nothing.
    No call changes anything else of the state.  On binary64 an image of
    grey 128 is logged as 128.00 and 12.27. *)
Theorem one_log_record_per_call {F : Type} `{PyFloat F} `{PIL}
    (file : UploadFile) (s : server F) :
  status_checks (snd (analyze_brightness file s)) = status_checks s
  ∧ next_object_id (snd (analyze_brightness file s)) = next_object_id s
  ∧ match fst (analyze_brightness file s) with
    | Return (BrightnessResult a e n) =>
        ∃ a0, logger (snd (analyze_brightness file s))
              = logger s ++ [Analyzed_image (format_2f a0) (format_2f (ev a0))]
          ∧ a = round2 a0 ∧ e = round2 (ev a0)
    | Return (ErrorPayload msg status) =>
        logger (snd (analyze_brightness file s))
        = logger s ++ [Error_analyzing_brightness msg]
    | Raise x =>
        is_Exception x = false ∧ logger (snd (analyze_brightness file s)) = logger s
    end
  ∧ logger (snd (@analyze_brightness float binary64 Raster.raster
                   (grey_upload Byte.x02 Byte.x02 Byte.x80) started))
    = [Analyzed_image "128.00" "12.27"]
  ∧ logger (snd (@analyze_brightness float binary64 Raster.raster
                   cancelled_upload started))
    = [].
Proof.
  split; [|split; [|split; [|split; vm_compute; reflexivity]]];
    rewrite analyze_brightness_cases.
  - destruct (read_pixels file) as [pixels|x]; [|by_catch; reflexivity].
    destruct (avg_luminance pixels) as [a0|x]; [|by_catch]; reflexivity.
  - destruct (read_pixels file) as [pixels|x]; [|by_catch; reflexivity].
    destruct (avg_luminance pixels) as [a0|x]; [|by_catch]; reflexivity.
  - destruct (read_pixels file) as [pixels|x].
    + destruct (avg_luminance pixels) as [a0|x] eqn:Ha.
      * exists a0. repeat split.
      * destruct (avg_luminance_raises pixels x Ha) as [_ ->]. reflexivity.
    + unfold caught_or_propagated. destruct (is_Exception x) eqn:Hx.
      * reflexivity.
      * split; [exact Hx | reflexivity].
Qed.

(** ** Brightness analysis beside the status log *)

(** X10.  [analyze_brightness] and [create_status_check] do not
    interfere: in either order the two calls give the same answers and
    leave the same state. *)
Theorem analyze_and_create_commute {F : Type} `{PyFloat F} `{PIL} `{Pydantic}
    (file : UploadFile) (uuid4 : string) (utcnow : Z) (input : StatusCheckCreate)
    (s : server F) :
  let a_first := analyze_brightness file s in
  let c_second := create_status_check uuid4 utcnow input (snd a_first) in
  let c_first := create_status_check uuid4 utcnow input s in
  let a_second := analyze_brightness file (snd c_first) in
  fst a_first = fst a_second ∧ fst c_second = fst c_first
  ∧ snd c_second = snd a_second.
Proof.
  cbn zeta. rewrite !analyze_brightness_cases, !create_status_check_stores.
  destruct (read_pixels file) as [pixels|x].
  - destruct (avg_luminance pixels) as [a0|x]; [|by_catch]; repeat split.
  - by_catch; repeat split.
Qed.

(** ** Creating and listing status checks *)

Lemma stored_app (n : N) (os os' : list StatusCheck) :
  stored n (os ++ os') = stored n os ++ stored (n + N.of_nat (length os)) os'.
Proof.
  revert n. induction os as [|o os IH]; intros n.
  - simpl. rewrite N.add_0_r. reflexivity.
  - cbn [app stored length]. rewrite IH. do 3 f_equal. lia.
Qed.

Lemma create_status_check_holds {F : Type} `{Pydantic} (uuid4 : string) (utcnow : Z)
    (input : StatusCheckCreate) (s : server F) (n : N) (os : list StatusCheck) :
  holds s n os →
  fst (create_status_check uuid4 utcnow input s)
  = Return (created (uuid4, utcnow, input))
  ∧ holds (snd (create_status_check uuid4 utcnow input s)) n
      (os ++ [as_stored (created (uuid4, utcnow, input))])
  ∧ logger (snd (create_status_check uuid4 utcnow input s)) = logger s.
Proof.
  intros [Hdocs Hnext]. rewrite create_status_check_stores. cbn [fst snd].
  split; [reflexivity|]. split; [|reflexivity]. split; cbn [status_checks next_object_id].
  - rewrite stored_app, Hdocs, Hnext. reflexivity.
  - rewrite length_app, Hnext. simpl length. lia.
Qed.

Lemma get_status_checks_holds {F : Type} `{Pydantic} (factories : nat → string * Z)
    (s : server F) (n : N) (os : list StatusCheck) :
  holds s n os → fst (get_status_checks factories s) = Return (take 1000 os).
Proof.
  intros [Hdocs _]. unfold get_status_checks, to_list. cbn [fst].
  rewrite Hdocs, take_stored. apply StatusCheck_each_stored.
Qed.

(** What the database cuts off a timestamp is less than a millisecond,
    and nothing of a whole number of milliseconds. *)
Lemma as_stored_timestamp (o : StatusCheck) :
  timestamp o - 1000 < timestamp (as_stored o) <= timestamp o
  ∧ timestamp (as_stored o) mod 1000 = 0
  ∧ (as_stored o = o ↔ timestamp o mod 1000 = 0).
Proof.
  destruct o as [i c t]. unfold as_stored. cbn [timestamp id_ client_name].
  pose proof (Z.div_mod t 1000 ltac:(lia)) as Hdm.
  pose proof (Z.mod_pos_bound t 1000 ltac:(lia)) as Hr.
  split; [lia|]. split; [apply Z.mod_mul; lia|]. split.
  - intros [= E]. lia.
  - intros E. f_equal. lia.
Qed.

(** X11.  A status check that was just created is listed last as long as
    the collection held fewer than 1000 of them, as the database keeps
    it: with the [id] and the [client_name] of the record the call
    returned and with its [timestamp] cut to the millisecond, so that
    the listed record is the returned one only if the clock gave no
    microseconds.  Once the collection holds 1000, a new status check is
    stored but the listing does not change any more.  (The database is
    taken to perform its operations.) *)
Theorem created_status_check_listed {F : Type} `{Pydantic}
    (factories : nat → string * Z)
    (uuid4 : string) (utcnow : Z) (input : StatusCheckCreate)
    (s : server F) (n : N) (os : list StatusCheck) :
  holds s n os →
  let s' := snd (create_status_check uuid4 utcnow input s) in
  let returned := created (uuid4, utcnow, input) in
  let listed := {| id_ := uuid4; client_name := input_client_name input;
                   timestamp := utcnow / 1000 * 1000 |} in
  fst (create_status_check uuid4 utcnow input s) = Return returned
  ∧ ((length os < 1000)%nat →
       fst (get_status_checks factories s') = Return (os ++ [listed]))
  ∧ ((1000 <= length os)%nat →
       fst (get_status_checks factories s') = fst (get_status_checks factories s)
       ∧ length (status_checks s') = S (length (status_checks s)))
  ∧ (listed = returned ↔ utcnow mod 1000 = 0)
  ∧ utcnow - 1000 < timestamp listed <= utcnow.
Proof.
  intros Hs. cbn zeta.
  destruct (create_status_check_holds uuid4 utcnow input s n os Hs)
    as (Hr & Hs' & _).
  rewrite (get_status_checks_holds factories _ n _ Hs').
  rewrite (get_status_checks_holds factories s n os Hs).
  pose proof (as_stored_timestamp (created (uuid4, utcnow, input))) as (Hcut & _ & Hsame).
  split; [exact Hr|]. split; [|split; [|split]].
  - intros Hlen. rewrite take_ge; [reflexivity|].
    rewrite length_app. simpl length. lia.
  - intros Hlen. split.
    + rewrite take_app_le by lia. reflexivity.
    + rewrite create_status_check_stores. cbn [snd status_checks].
      rewrite length_app. simpl length. lia.
  - exact Hsame.
  - exact Hcut.
Qed.

Lemma created_status_check_listed_witness :
  fst (@get_status_checks float epoch_parser (fun _ => ("", 0))
         (snd (@create_status_check float epoch_parser "u2" 8123456
                 {| input_client_name := "b" |}
                 (Server (stored 5 [{| id_ := "u1"; client_name := "a";
                                       timestamp := 7000 |}]) 6 []))))
  = Return [{| id_ := "u1"; client_name := "a"; timestamp := 7000 |};
            {| id_ := "u2"; client_name := "b"; timestamp := 8123000 |}].
Proof.
  apply (proj1 (proj2 (@created_status_check_listed float epoch_parser
                  (fun _ => ("", 0)) "u2" 8123456
                  {| input_client_name := "b" |}
                  (Server (stored 5 [{| id_ := "u1"; client_name := "a";
                                        timestamp := 7000 |}]) 6 [])
                  5%N [{| id_ := "u1"; client_name := "a"; timestamp := 7000 |}]
                  (conj eq_refl eq_refl)))).
  simpl. lia.
Defined.

Lemma create_status_checks_holds {F : Type} `{Pydantic}
    (calls : list (string * Z * StatusCheckCreate)) (s : server F) (n : N)
    (os : list StatusCheck) :
  holds s n os →
  fst (create_status_checks calls s) = Return (map created calls)
  ∧ holds (snd (create_status_checks calls s)) n
      (os ++ map as_stored (map created calls))
  ∧ logger (snd (create_status_checks calls s)) = logger s.
Proof.
  revert s os. induction calls as [|[[uuid4 utcnow] input] calls IH]; intros s os Hs.
  - simpl. rewrite app_nil_r. auto.
  - destruct (create_status_check_holds uuid4 utcnow input s n os Hs)
      as (Hr & Hs' & Hlog).
    cbn [create_status_checks]. unfold mbind, handler_bind.
    destruct (create_status_check uuid4 utcnow input s) as [r s'] eqn:Hc.
    cbn [fst snd] in Hr, Hs', Hlog. subst r.
    destruct (IH s' _ Hs') as (Hrs & Hs'' & Hlog').
    destruct (create_status_checks calls s') as [rs s''] eqn:Hcs.
    cbn [fst snd] in Hrs, Hs'', Hlog'. subst rs.
    cbn [mret handler_ret fst snd map].
    split; [reflexivity|]. split; [|congruence].
    rewrite <- app_assoc in Hs''. exact Hs''.
Qed.

Lemma stored_length (n : N) (os : list StatusCheck) : length (stored n os) = length os.
Proof.
  revert n. induction os as [|o os IH]; intros n; [reflexivity|].
  cbn [stored length]. rewrite IH. reflexivity.
Qed.

(** X12.  With a database that performs its operations: starting from an
    empty collection, after any sequence of [create_status_check] calls
    the listing returns the records created, in the order of their
    creation, each with the [id] and the [client_name] it was created
    with and with its [timestamp] cut to the millisecond, up to the
    first 1000; one document is stored for each call and nothing is
    logged. *)
Theorem listing_after_creates {F : Type} `{Pydantic} (factories : nat → string * Z)
    (calls : list (string * Z * StatusCheckCreate)) :
  let run := create_status_checks (F := F) calls started in
  let listed call := {| id_ := fst (fst call);
                        client_name := input_client_name (snd call);
                        timestamp := snd (fst call) / 1000 * 1000 |} in
  fst (get_status_checks factories (snd run)) = Return (take 1000 (map listed calls))
  ∧ length (status_checks (snd run)) = length calls
  ∧ logger (snd run) = [].
Proof.
  cbn zeta.
  destruct (create_status_checks_holds calls (started (F := F)) 0 [])
    as (Hr & Hs & Hlog); [split; reflexivity|].
  cbn [app] in Hs.
  split; [|split; [|exact Hlog]].
  - rewrite (get_status_checks_holds factories _ 0 _ Hs). do 2 f_equal.
    rewrite map_map. apply map_ext. intros [[u t] input]. reflexivity.
  - destruct Hs as [-> _]. rewrite stored_length, !length_map. reflexivity.
Qed.

(** ** Documents that are not status checks *)







(** ** Records and their documents *)

(** X14.  A record read back from its own document is the record, the
    factories not being consulted; keys that are not fields of
    [StatusCheck], such as the [_id] the database adds, are ignored; and
    a document with only a [client_name] gets its [id] and [timestamp]
    from the factories. *)
Theorem StatusCheck_document_round_trip `{Pydantic} (uuid4 : string) (utcnow : Z) :
  (∀ o, StatusCheck_new uuid4 utcnow (StatusCheck_dict o) = Return o)
  ∧ (∀ key v d, key ≠ "id" → key ≠ "client_name" → key ≠ "timestamp" →
       StatusCheck_new uuid4 utcnow (<[key := v]> d) = StatusCheck_new uuid4 utcnow d)
  ∧ (∀ input,
       StatusCheck_new uuid4 utcnow (StatusCheckCreate_dict input)
       = Return {| id_ := uuid4; client_name := input_client_name input;
                   timestamp := utcnow |}).
Proof.
  repeat split.
  - intros o. unfold StatusCheck_new, StatusCheck_dict.
    repeat (rewrite lookup_insert_ne by discriminate || rewrite lookup_insert_eq).
    simpl. destruct o. reflexivity.
  - intros key v d Hid Hname Htime. unfold StatusCheck_new.
    rewrite !lookup_insert_ne by assumption. reflexivity.
Qed.

Lemma StatusCheck_document_round_trip_witness :
  @StatusCheck_new epoch_parser "u" 3
    (<["_id" := VObjectId 9]> (<["client_name" := VStr "a"]> ∅))
  = @StatusCheck_new epoch_parser "u" 3 (<["client_name" := VStr "a"]> ∅).
Proof.
  apply (proj1 (proj2 (@StatusCheck_document_round_trip epoch_parser "u" 3)));
    discriminate.
Defined.

(** ** Grey levels *)

Lemma grey_levels_checked : forallb grey_level_agrees (map Z.of_nat (seq 0 256)) = true.
Proof. vm_compute. reflexivity. Qed.

(** X15.  For every grey level [c] of 0..255 the rounding of binary64
    does not show in the answer: the average of one pixel [(c, c, c)]
    rounds to [c], and its exposure value, like that of the luminance
    [c] itself, rounds to the two places the exact curve gives at [c]. *)
Theorem binary64_agrees_on_grey_levels (c : Z) :
  0 <= c <= 255 →
  ∃ a, @avg_luminance float binary64 [(c, c, c)] = Return a
    ∧ @round2 float binary64 a = float_of_Z c
    ∧ @round2 float binary64 (@ev float binary64 a)
      = rounded_exact (@ev Q exact (inject_Z c))
    ∧ @round2 float binary64 (@ev float binary64 (float_of_Z c))
      = rounded_exact (@ev Q exact (inject_Z c)).
Proof.
  intros Hc.
  assert (Hin : In c (map Z.of_nat (seq 0 256))).
  { apply in_map_iff. exists (Z.to_nat c). split; [lia|].
    apply in_seq. lia. }
  pose proof (proj1 (forallb_forall _ _) grey_levels_checked c Hin) as Hok.
  unfold grey_level_agrees in Hok.
  destruct (@avg_luminance float binary64 [(c, c, c)]) as [a|x]; [|discriminate].
  apply andb_true_iff in Hok as [Hok H3]. apply andb_true_iff in Hok as [H1 H2].
  apply FloatAxioms.Leibniz.eqb_spec in H1, H2, H3.
  exists a. repeat split; assumption.
Qed.

Lemma binary64_agrees_on_grey_levels_witness :
  ∃ a, @avg_luminance float binary64 [(128, 128, 128)] = Return a
    ∧ @round2 float binary64 a = float_of_Z 128.
Proof.
  destruct (binary64_agrees_on_grey_levels 128 ltac:(lia)) as (a & Ha & Hr & _).
  exists a. split; assumption.
Defined.

(** ** The ends of the range *)

Lemma luma_BT601_zero (p : pixel) :
  eight_bit p → (luma_BT601 p <= 0)%Q → p = (0, 0, 0).
Proof.
  destruct p as [[r g] b]. unfold eight_bit, luma_BT601.
  intros ([Hr0 Hr] & [Hg0 Hg] & [Hb0 Hb]) Hz.
  assert (Hsum : (inject_Z (299 * r + 587 * g + 114 * b) <= inject_Z 0)%Q).
  { rewrite !inject_Z_plus, !inject_Z_mult.
    change (inject_Z 0) with 0%Q. change (inject_Z 299) with (299 # 1)%Q.
    change (inject_Z 587) with (587 # 1)%Q. change (inject_Z 114) with (114 # 1)%Q.
    lra. }
  rewrite <- Zle_Qle in Hsum.
  assert (r = 0 ∧ g = 0 ∧ b = 0) as (-> & -> & ->) by lia. reflexivity.
Qed.

Lemma luma_BT601_full (p : pixel) :
  eight_bit p → (255 <= luma_BT601 p)%Q → p = (255, 255, 255).
Proof.
  destruct p as [[r g] b]. unfold eight_bit, luma_BT601.
  intros ([Hr0 Hr] & [Hg0 Hg] & [Hb0 Hb]) Hz.
  assert (Hsum : (inject_Z 255000 <= inject_Z (299 * r + 587 * g + 114 * b))%Q).
  { rewrite !inject_Z_plus, !inject_Z_mult.
    change (inject_Z 255000) with (255000 # 1)%Q.
    change (inject_Z 299) with (299 # 1)%Q.
    change (inject_Z 587) with (587 # 1)%Q. change (inject_Z 114) with (114 # 1)%Q.
    lra. }
  rewrite <- Zle_Qle in Hsum.
  assert (r = 255 ∧ g = 255 ∧ b = 255) as (-> & -> & ->) by lia. reflexivity.
Qed.

Lemma Qsum_zero (pixels : list pixel) :
  Forall eight_bit pixels → (Qsum (map luma_BT601 pixels) <= 0)%Q →
  Forall (eq (0, 0, 0)) pixels.
Proof.
  induction 1 as [|p pixels Hp H8 IH]; [constructor|].
  cbn [map Qsum fold_right]. fold (Qsum (map luma_BT601 pixels)). intros Hz.
  destruct (luma_BT601_range p Hp) as [Hp0 _].
  destruct (Qsum_range pixels H8) as [Hs0 _].
  constructor.
  - symmetry. apply (luma_BT601_zero p Hp). lra.
  - apply IH. lra.
Qed.

Lemma Qsum_full (pixels : list pixel) :
  Forall eight_bit pixels →
  (255 * inject_Z (Z.of_nat (length pixels)) <= Qsum (map luma_BT601 pixels))%Q →
  Forall (eq (255, 255, 255)) pixels.
Proof.
  induction 1 as [|p pixels Hp H8 IH]; [constructor|].
  cbn [map Qsum fold_right length]. fold (Qsum (map luma_BT601 pixels)).
  rewrite Nat2Z.inj_succ. unfold Z.succ. rewrite inject_Z_plus.
  change (inject_Z 1) with 1%Q. intros Hz.
  destruct (luma_BT601_range p Hp) as [_ Hp255].
  destruct (Qsum_range pixels H8) as [_ Hs255].
  constructor.
  - symmetry. apply (luma_BT601_full p Hp). lra.
  - apply IH. lra.
Qed.

(** X17.  Among images of eight-bit pixels only the all-black one has
    average luminance 0 and exposure value 2, and only the all-white one
    has average luminance 255 and exposure value 17 (in exact
    arithmetic). *)
Theorem extremes_only_black_and_white (pixels : list pixel) (a : Q) :
  Forall eight_bit pixels → @avg_luminance Q exact pixels = Return a →
  (((a <= 0)%Q ∨ (@ev Q exact a <= 2)%Q) → Forall (eq (0, 0, 0)) pixels)
  ∧ (((255 <= a)%Q ∨ (17 <= @ev Q exact a)%Q) → Forall (eq (255, 255, 255)) pixels).
Proof.
  intros H8 Ha.
  assert (Hne : pixels ≠ []).
  { intros ->. rewrite avg_luminance_empty in Ha. discriminate. }
  destruct (avg_luminance_exact_mean pixels Hne) as (a' & Ha' & Hmean).
  rewrite Ha in Ha'. injection Ha' as <-.
  pose proof (count_positive pixels Hne) as Hn.
  set (n := inject_Z (Z.of_nat (length pixels))) in *.
  assert (Hsum : (Qsum (map luma_BT601 pixels) == a * n)%Q).
  { rewrite Hmean. unfold mean_luma. fold n. field. lra. }
  split.
  - intros Hlow. assert (Ha0 : (a <= 0)%Q).
    { destruct Hlow as [H|H]; [exact H|].
      destruct (Qlt_le_dec 0 a) as [Hpos|Hneg]; [|exact Hneg].
      apply ev_exact_increasing in Hpos.
      assert (E : (@ev Q exact 0%Q == 2)%Q) by reflexivity. lra. }
    apply (Qsum_zero pixels H8). rewrite Hsum. nra.
  - intros Hhigh. assert (Ha255 : (255 <= a)%Q).
    { destruct Hhigh as [H|H]; [exact H|].
      destruct (Qlt_le_dec a 255) as [Hlt|Hge]; [|exact Hge].
      apply ev_exact_increasing in Hlt.
      assert (E : (@ev Q exact 255%Q == 17)%Q) by reflexivity. lra. }
    apply (Qsum_full pixels H8). rewrite Hsum. fold n. nra.
Qed.

Lemma extremes_only_black_and_white_witness :
  ∃ a : Q, @avg_luminance Q exact [(0, 0, 0); (0, 0, 0)] = Return a
    ∧ Forall (eq (0, 0, 0)) [(0, 0, 0); (0, 0, 0)].
Proof.
  eexists. split; [reflexivity|].
  apply (proj1 (extremes_only_black_and_white [(0, 0, 0); (0, 0, 0)] _
                  ltac:(repeat constructor; lia) eq_refl)).
  left. vm_compute. discriminate.
Defined.
